(** * Phantom: room lifecycle and relay engine (src/Phantom/app.py)

    A shallow embedding of the Flask / Flask-SocketIO application: the
    in-memory room registry [active_rooms], the two HTTP endpoints, the
    Socket.IO event handlers and the background sweeper [cleanup_rooms].

    Modelling conventions.
    - Python dictionaries with string keys are [gmap string _].
    - Python [int] is [Z]; the readings of [time.time()] are rationals [Q]
      (exact arithmetic: the comparisons of the program are modelled, the
      rounding of binary floating point is not).
    - The clock reading, the random token and the calling connection
      ([request.sid]) are explicit arguments of the handlers.
    - A handler is a computation in a state-and-exception monad over
      [World]; a Python exception is the result [Raise _].
    - The calls into the Socket.IO transport ([join_room], [leave_room],
      [emit]) act on the transport's room membership table [groups] and
      append to the [outbox] what was sent and to whom. *)

From Stdlib Require Import QArith Lqa.
From stdpp Require Import gmap strings list fin_maps.

Local Open Scope Z_scope.
Set Warnings "-register-all,-clear-no-such-hyp".

(** ** JSON payloads as Python sees them *)

Inductive json : Type :=
| JNull
| JBool (b : bool)
| JInt (z : Z)
| JFloat (q : Q)
| JStr (s : string)
| JArr (l : list json)
| JObj (o : list (string * json)).

(** A decoded JSON object: the [data] argument of a handler. *)
Abbreviation payload := (gmap string json).

(** Python truth value, as tested by [if sender_sid:]. *)
Definition truthy (j : json) : bool :=
  match j with
  | JNull => false
  | JBool b => b
  | JInt z => negb (z =? 0)
  | JFloat q => negb (Qnum q =? 0)
  | JStr s => negb (String.eqb s "")
  | JArr l => match l with [] => false | _ => true end
  | JObj o => match o with [] => false | _ => true end
  end.

(** [list] and [dict] values cannot be dictionary keys. *)
Definition hashable (j : json) : bool :=
  match j with
  | JArr _ | JObj _ => false
  | _ => true
  end.

(** ** Exceptions and results *)

Inductive exn : Type :=
| KeyError (k : json)
| TypeError.

Inductive result (A : Type) : Type :=
| Ok (a : A)
| Raise (e : exn).
Arguments Ok {A} a.
Arguments Raise {A} e.

(** ** The state of the process *)

(** [{ 'expiry': timestamp, 'users': count }] *)
Record Room : Type := mkRoom { expiry : Q; users : Z }.

(** One [emit] call: event name, data, target room, and the connection
    skipped by [include_self=False]. *)
Record Emission : Type := mkEmission {
  event : string;
  body : option payload;
  room : json;
  skip_sid : option string
}.

(** What the transport did with an emission: the connections it reached at
    the moment of the call ([None]: the room name is not a string, which the
    membership table does not cover). *)
Record Sent : Type := mkSent {
  call : Emission;
  receivers : option (gset string)
}.

Record World : Type := mkWorld {
  active_rooms : gmap string Room;
  groups : gmap string (gset string);
  outbox : list Sent
}.

Definition ROOM_TTL : Z := 600.

Definition set_rooms (f : gmap string Room → gmap string Room) (w : World) : World :=
  mkWorld (f (active_rooms w)) (groups w) (outbox w).

Definition set_groups (f : gmap string (gset string) → gmap string (gset string))
    (w : World) : World :=
  mkWorld (active_rooms w) (f (groups w)) (outbox w).

Definition push_sent (s : Sent) (w : World) : World :=
  mkWorld (active_rooms w) (groups w) (outbox w ++ [s]).

(** ** The handler monad *)

Definition M (A : Type) : Type := World → result A * World.

Definition ret {A} (a : A) : M A := λ w, (Ok a, w).

Definition bind {A B} (m : M A) (k : A → M B) : M B :=
  λ w, match m w with
       | (Ok a, w') => k a w'
       | (Raise e, w') => (Raise e, w')
       end.

Definition raise {A} (e : exn) : M A := λ w, (Raise e, w).

Definition get_world : M World := λ w, (Ok w, w).

Definition modify (f : World → World) : M unit := λ w, (Ok tt, f w).

#[global] Instance M_ret : MRet M := @ret.
#[global] Instance M_bind : MBind M := λ A B k m, bind m k.

(** Final state and result of running a handler. *)
Definition exec {A} (m : M A) (w : World) : World := snd (m w).
Definition eval {A} (m : M A) (w : World) : result A := fst (m w).

(** ** Dictionary access *)

(** [data[k]] *)
Definition getitem (data : payload) (k : string) : M json :=
  match data !! k with
  | Some v => ret v
  | None => raise (KeyError (JStr k))
  end.

(** [data.get(k)] *)
Definition dict_get (data : payload) (k : string) : json :=
  default JNull (data !! k).

(** The entry of the registry under a JSON key: the keys of [active_rooms]
    are the strings made by [generate_token], so only a string finds one. *)
Definition room_of (rooms : gmap string Room) (token : json) : option Room :=
  match token with
  | JStr t => rooms !! t
  | _ => None
  end.

(** [token in active_rooms] *)
Definition contains (token : json) : M bool :=
  if hashable token
  then w ← get_world; ret (bool_decide (is_Some (room_of (active_rooms w) token)))
  else raise TypeError.

(** [active_rooms[token]] *)
Definition room_item (token : json) : M Room :=
  w ← get_world;
  match room_of (active_rooms w) token with
  | Some r => ret r
  | None => if hashable token then raise (KeyError token) else raise TypeError
  end.

(** [active_rooms[token]['users'] = n] *)
Definition store_users (token : json) (n : Z) : M unit :=
  r ← room_item token;
  match token with
  | JStr t => modify (set_rooms (insert t (mkRoom (expiry r) n)))
  | _ => ret tt
  end.

(** [del active_rooms[token]] *)
Definition del_room (token : string) : M unit :=
  room_item (JStr token);;
  modify (set_rooms (delete token)).

(** ** The transport (Flask-SocketIO) *)

Definition members (g : gmap string (gset string)) (name : string) : gset string :=
  default ∅ (g !! name).

(** The connections reached by an emission. *)
Definition recipients (g : gmap string (gset string)) (e : Emission)
    : option (gset string) :=
  match room e with
  | JStr name =>
      Some (match skip_sid e with
            | Some s => members g name ∖ {[ s ]}
            | None => members g name
            end)
  | _ => None
  end.

(** [socketio.emit(event, data, room=r)], outside of any request. *)
Definition socketio_emit (ev : string) (data : option payload) (r : json) : M unit :=
  modify (λ w, let e := mkEmission ev data r None in
               push_sent (mkSent e (recipients (groups w) e)) w).

(** [emit(event, data, room=r, include_self=b)] inside a handler called for
    connection [sid]. *)
Definition emit (sid : string) (ev : string) (data : payload) (r : json)
    (include_self : bool) : M unit :=
  modify (λ w, let e := mkEmission ev (Some data) r
                          (if include_self then None else Some sid) in
               push_sent (mkSent e (recipients (groups w) e)) w).

(** [join_room(token)] *)
Definition join_room (sid : string) (token : json) : M unit :=
  match token with
  | JStr t => modify (set_groups (λ g, <[ t := {[ sid ]} ∪ members g t ]> g))
  | _ => ret tt
  end.

(** [leave_room(token)] *)
Definition leave_room (sid : string) (token : json) : M unit :=
  match token with
  | JStr t => modify (set_groups (λ g, <[ t := members g t ∖ {[ sid ]} ]> g))
  | _ => ret tt
  end.

(** ** Comparisons of clock readings *)

(** [a > b] *)
Definition Qgtb (a b : Q) : bool := negb (Qle_bool a b).

(** ** HTTP endpoints *)

(** [generate_token()]: [fresh] is the value of [secrets.token_urlsafe(8)],
    [now] the reading of [time.time()]. *)
Definition generate_token (fresh : string) (now : Q) : M payload :=
  modify (set_rooms (insert fresh (mkRoom (now + inject_Z ROOM_TTL) 0)));;
  ret ({[ "token" := JStr fresh; "expires_in" := JInt ROOM_TTL ]} : payload).

(** [validate_token()]: [data] is [request.json]. *)
Definition validate_token (data : payload) (now : Q) : M payload :=
  let token := dict_get data "token" in
  present ← contains token;
  if (present : bool) then
    r ← room_item token;
    let remaining := (expiry r - now)%Q in
    if Qgtb remaining 0
    then ret ({[ "valid" := JBool true; "remaining" := JFloat remaining ]} : payload)
    else ret ({[ "valid" := JBool false ]} : payload)
  else ret ({[ "valid" := JBool false ]} : payload).

(** ** Socket.IO event handlers; [sid] is the calling connection *)

Definition on_join (sid : string) (data : payload) : M unit :=
  token ← getitem data "token";
  present ← contains token;
  if (present : bool) then
    join_room sid token;;
    r ← room_item token;
    store_users token (users r + 1);;
    r' ← room_item token;
    emit sid "update_status" {[ "count" := JInt (users r') ]} token true
  else ret tt.

Definition on_leave (sid : string) (data : payload) : M unit :=
  token ← getitem data "token";
  present ← contains token;
  if (present : bool) then
    leave_room sid token;;
    r ← room_item token;
    store_users token (Z.max 0 (users r - 1));;
    r' ← room_item token;
    emit sid "update_status" {[ "count" := JInt (users r') ]} token true
  else ret tt.

Definition handle_message (sid : string) (data : payload) : M unit :=
  token ← getitem data "token";
  present ← contains token;
  if (present : bool) then emit sid "message" data token true
  else ret tt.

Definition confirm_delivery (sid : string) (data : payload) : M unit :=
  let sender_sid := dict_get data "sender_socket_id" in
  if truthy sender_sid then
    msg_id ← getitem data "msg_id";
    emit sid "msg_delivered" {[ "msg_id" := msg_id ]} sender_sid true
  else ret tt.

Definition handle_typing (sid : string) (data : payload) : M unit :=
  token ← getitem data "token";
  emit sid "display_typing" ∅ token false.

Definition handle_stop_typing (sid : string) (data : payload) : M unit :=
  token ← getitem data "token";
  emit sid "hide_typing" ∅ token false.

(** The value returned is the acknowledgement sent back to the caller. *)
Definition ping_check (now : Q) : M Q := ret now.

Definition share_metrics (sid : string) (data : payload) : M unit :=
  token ← getitem data "token";
  ping ← getitem data "ping";
  emit sid "update_peer_metrics" {[ "ping" := ping ]} token false.

(** ** The sweeper *)

Fixpoint for_each {A} (l : list A) (f : A → M unit) : M unit :=
  match l with
  | [] => ret tt
  | x :: l' => f x;; for_each l' f
  end.

(** [list(active_rooms.keys())], a snapshot taken before the loop.  The keys
    come in the order of the map, not in Python's insertion order: only the
    order of the notifications of different rooms depends on it. *)
Definition keys (rooms : gmap string Room) : list string := (map_to_list rooms).*1.

(** The body of the [for] loop of [cleanup_rooms]. *)
Definition sweep_token (current_time : Q) (token : string) : M unit :=
  r ← room_item (JStr token);
  if Qgtb current_time (expiry r)
  then socketio_emit "room_expired" None (JStr token);; del_room token
  else ret tt.

(** One round of the [while True] loop, woken up from [time.sleep(10)] at
    [current_time]. *)
Definition cleanup_pass (current_time : Q) : M unit :=
  w ← get_world;
  for_each (keys (active_rooms w)) (sweep_token current_time).

(** The loop itself, along the successive readings of the clock. *)
Fixpoint cleanup_rooms (clock : list Q) : M unit :=
  match clock with
  | [] => ret tt
  | current_time :: later => cleanup_pass current_time;; cleanup_rooms later
  end.

(** The sweeper never raises, however long it runs. *)
Definition sweeper_alive (clock : list Q) (w : World) : bool :=
  match eval (cleanup_rooms clock) w with
  | Ok _ => true
  | Raise _ => false
  end.

(** ** Requests and reachable states *)

(** Everything that can happen to the process: an HTTP request, a Socket.IO
    event, or a round of the sweeper. *)
Inductive Request : Type :=
| GenerateToken (fresh : string) (now : Q)
| ValidateToken (data : payload) (now : Q)
| Join (sid : string) (data : payload)
| Leave (sid : string) (data : payload)
| Message (sid : string) (data : payload)
| ConfirmDelivery (sid : string) (data : payload)
| Typing (sid : string) (data : payload)
| StopTyping (sid : string) (data : payload)
| PingCheck (now : Q)
| ShareMetrics (sid : string) (data : payload)
| Sweep (now : Q).

(** The state after a request (the state survives an exception). *)
Definition step (req : Request) (w : World) : World :=
  match req with
  | GenerateToken fresh now => exec (generate_token fresh now) w
  | ValidateToken data now => exec (validate_token data now) w
  | Join sid data => exec (on_join sid data) w
  | Leave sid data => exec (on_leave sid data) w
  | Message sid data => exec (handle_message sid data) w
  | ConfirmDelivery sid data => exec (confirm_delivery sid data) w
  | Typing sid data => exec (handle_typing sid data) w
  | StopTyping sid data => exec (handle_stop_typing sid data) w
  | PingCheck now => exec (ping_check now) w
  | ShareMetrics sid data => exec (share_metrics sid data) w
  | Sweep now => exec (cleanup_pass now) w
  end.

Definition run (reqs : list Request) (w : World) : World :=
  foldl (λ w req, step req w) w reqs.

(** The process starts with an empty registry ([active_rooms = {}]). *)
Definition initial (g : gmap string (gset string)) : World := mkWorld ∅ g [].

Definition reachable (w : World) : Prop :=
  ∃ g reqs, w = run reqs (initial g).

(** A token names a currently valid room: present, and not yet expired. *)
Definition valid_room (w : World) (now : Q) (token : json) : Prop :=
  ∃ r, room_of (active_rooms w) token = Some r ∧ (now < expiry r)%Q.

(** ** Notions used in the statements about the sweeper *)

(** The room's expiry has passed at [now], as the sweeper tests it. *)
Definition expired (now : Q) (rooms : gmap string Room) (k : string) : bool :=
  match rooms !! k with
  | Some r => Qgtb now (expiry r)
  | None => false
  end.

(** The [room_expired] notification for room [k], with its receivers. *)
Definition notice (g : gmap string (gset string)) (k : string) : Sent :=
  mkSent (mkEmission "room_expired" None (JStr k) None) (Some (members g k)).

Definition drop_rooms (rooms : gmap string Room) (l : list string) : gmap string Room :=
  foldl (λ m k, delete k m) rooms l.

(** The rooms notified and removed by a round at [now]. *)
Definition swept (now : Q) (rooms : gmap string Room) : list string :=
  List.filter (expired now rooms) (keys rooms).

(** ** Example states *)

(** A registry holding one room whose expiry (100) has passed, and nobody
    connected. *)
Definition stale_world : World := mkWorld {[ "T" := mkRoom 100 0 ]} ∅ [].

(** A room created at time 0, joined once, and left twice. *)
Definition left_twice : World :=
  run [ GenerateToken "T" 0;
        Join "a" {[ "token" := JStr "T" ]};
        Leave "a" {[ "token" := JStr "T" ]};
        Leave "a" {[ "token" := JStr "T" ]} ]
      (initial ∅).

(** Two connections in room "T", each also alone in the room of its own id. *)
Definition two_peers : World :=
  mkWorld {[ "T" := mkRoom 600 2 ]}
          {[ "T" := {[ "s1"; "s2" ]}; "s1" := {[ "s1" ]}; "s2" := {[ "s2" ]} ]}
          [].

(** ** Notions used in the statements about sequences of events *)

(** The joins of the connections [sids], one after the other, with the same
    payload; likewise the leaves. *)
Definition joins (sids : list string) (data : payload) : list Request :=
  (λ sid, Join sid data) <$> sids.

Definition leaves (sids : list string) (data : payload) : list Request :=
  (λ sid, Leave sid data) <$> sids.

(** The [update_status] broadcast of a count to a room, as received. *)
Definition status_sent (t : string) (count : Z) (to : gset string) : Sent :=
  mkSent (mkEmission "update_status" (Some {[ "count" := JInt count ]}) (JStr t) None)
         (Some to).

(** The two answers of the validate endpoint. *)
Definition invalid_response : payload := {[ "valid" := JBool false ]}.

Definition valid_response (remaining : Q) : payload :=
  {[ "valid" := JBool true; "remaining" := JFloat remaining ]}.

(** Room "T" created at time 0 and joined by the connections "s1" and "s2",
    each of them also alone in the transport room named by its own id. *)
Definition chat_room : World :=
  run [ GenerateToken "T" 0;
        Join "s1" {[ "token" := JStr "T" ]};
        Join "s2" {[ "token" := JStr "T" ]} ]
      (initial {[ "s1" := {[ "s1" ]}; "s2" := {[ "s2" ]} ]}).

(** ** Basic facts about the monad and the dictionary accesses *)

Lemma Qgtb_lt (a b : Q) : Qgtb a b = true ↔ (b < a)%Q.
Proof.
  unfold Qgtb. rewrite negb_true_iff.
  destruct (Qle_bool a b) eqn:E.
  - apply Qle_bool_iff in E. split; [discriminate | intros H; exfalso; lra].
  - split; [intros _ | reflexivity].
    apply Qnot_le_lt. intros H. apply Qle_bool_iff in H. congruence.
Qed.

Lemma Qgtb_le (a b : Q) : Qgtb a b = false ↔ (a <= b)%Q.
Proof.
  unfold Qgtb. rewrite negb_false_iff. apply Qle_bool_iff.
Qed.

Lemma getitem_Some (data : payload) k v w :
  data !! k = Some v → getitem data k w = (Ok v, w).
Proof. intros H. unfold getitem. by rewrite H. Qed.

Lemma getitem_None (data : payload) k w :
  data !! k = None → getitem data k w = (Raise (KeyError (JStr k)), w).
Proof. intros H. unfold getitem. by rewrite H. Qed.

Lemma contains_str t w :
  contains (JStr t) w = (Ok (bool_decide (is_Some (active_rooms w !! t))), w).
Proof. reflexivity. Qed.

Lemma contains_present t r w :
  active_rooms w !! t = Some r → contains (JStr t) w = (Ok true, w).
Proof.
  intros H. rewrite contains_str. rewrite bool_decide_eq_true_2; [done | by eexists].
Qed.

Lemma contains_absent t w :
  active_rooms w !! t = None → contains (JStr t) w = (Ok false, w).
Proof.
  intros H. rewrite contains_str. rewrite bool_decide_eq_false_2; [done |].
  rewrite H. by intros [? ?].
Qed.

Lemma room_item_present t r w :
  active_rooms w !! t = Some r → room_item (JStr t) w = (Ok r, w).
Proof. intros H. unfold room_item, mbind, M_bind, bind. simpl. by rewrite H. Qed.

(** Unfold one handler down to the primitive state transformers. *)
Ltac unfold_monad :=
  unfold mbind, M_bind, bind, ret, raise, modify, get_world, exec, eval in *.

Lemma bind_ok {A B} (m : M A) (k : A → M B) a w w' :
  m w = (Ok a, w') → (m ≫= k) w = k a w'.
Proof. intros H. unfold mbind, M_bind, bind. by rewrite H. Qed.

Lemma bind_raise {A B} (m : M A) (k : A → M B) e w w' :
  m w = (Raise e, w') → (m ≫= k) w = (Raise e, w').
Proof. intros H. unfold mbind, M_bind, bind. by rewrite H. Qed.

Lemma store_users_present t r n w :
  active_rooms w !! t = Some r →
  store_users (JStr t) n w = (Ok tt, set_rooms (insert t (mkRoom (expiry r) n)) w).
Proof.
  intros H. unfold store_users. by rewrite (bind_ok _ _ _ _ _ (room_item_present _ _ _ H)).
Qed.

Lemma members_insert_eq g t X : members (<[ t := X ]> g) t = X.
Proof. unfold members. by rewrite lookup_insert_eq. Qed.

Lemma members_insert_ne g t t' X : t ≠ t' → members (<[ t := X ]> g) t' = members g t'.
Proof. intros H. unfold members. by rewrite lookup_insert_ne. Qed.

(** Run the next statement of a handler, given what it evaluates to. *)
Ltac next H := rewrite (bind_ok _ _ _ _ _ H); cbv beta.
Ltac next_eq := erewrite bind_ok by reflexivity; cbv beta.

(** ** What each handler does on a string token *)

Section handlers.
Variables (sid : string) (data : payload) (t : string) (w : World).
Hypothesis Htoken : data !! "token" = Some (JStr t).

Lemma on_join_absent :
  active_rooms w !! t = None → on_join sid data w = (Ok tt, w).
Proof.
  intros Hno. unfold on_join.
  next (getitem_Some _ _ _ w Htoken). by next (contains_absent _ _ Hno).
Qed.

Lemma on_join_present r :
  active_rooms w !! t = Some r →
  on_join sid data w =
    (Ok tt,
     mkWorld (<[ t := mkRoom (expiry r) (users r + 1) ]> (active_rooms w))
             (<[ t := {[ sid ]} ∪ members (groups w) t ]> (groups w))
             (outbox w ++
                [ mkSent (mkEmission "update_status"
                            (Some {[ "count" := JInt (users r + 1) ]}) (JStr t) None)
                         (Some ({[ sid ]} ∪ members (groups w) t)) ])).
Proof.
  intros Hr. unfold on_join.
  next (getitem_Some _ _ _ w Htoken). next (contains_present _ _ _ Hr).
  next_eq.
  erewrite bind_ok by (apply room_item_present; simpl; exact Hr). cbv beta.
  erewrite bind_ok by (apply store_users_present; simpl; exact Hr). cbv beta.
  erewrite bind_ok by (apply room_item_present; simpl; apply lookup_insert_eq).
  cbv beta. unfold emit, modify, push_sent, recipients. simpl.
  by rewrite members_insert_eq.
Qed.

Lemma on_leave_absent :
  active_rooms w !! t = None → on_leave sid data w = (Ok tt, w).
Proof.
  intros Hno. unfold on_leave.
  next (getitem_Some _ _ _ w Htoken). by next (contains_absent _ _ Hno).
Qed.

Lemma on_leave_present r :
  active_rooms w !! t = Some r →
  on_leave sid data w =
    (Ok tt,
     mkWorld (<[ t := mkRoom (expiry r) (Z.max 0 (users r - 1)) ]> (active_rooms w))
             (<[ t := members (groups w) t ∖ {[ sid ]} ]> (groups w))
             (outbox w ++
                [ mkSent (mkEmission "update_status"
                            (Some {[ "count" := JInt (Z.max 0 (users r - 1)) ]})
                            (JStr t) None)
                         (Some (members (groups w) t ∖ {[ sid ]})) ])).
Proof.
  intros Hr. unfold on_leave.
  next (getitem_Some _ _ _ w Htoken). next (contains_present _ _ _ Hr).
  next_eq.
  erewrite bind_ok by (apply room_item_present; simpl; exact Hr). cbv beta.
  erewrite bind_ok by (apply store_users_present; simpl; exact Hr). cbv beta.
  erewrite bind_ok by (apply room_item_present; simpl; apply lookup_insert_eq).
  cbv beta. unfold emit, modify, push_sent, recipients. simpl.
  by rewrite members_insert_eq.
Qed.

Lemma handle_message_absent :
  active_rooms w !! t = None → handle_message sid data w = (Ok tt, w).
Proof.
  intros Hno. unfold handle_message.
  next (getitem_Some _ _ _ w Htoken). by next (contains_absent _ _ Hno).
Qed.

Lemma handle_message_present r :
  active_rooms w !! t = Some r →
  handle_message sid data w =
    (Ok tt,
     mkWorld (active_rooms w) (groups w)
             (outbox w ++
                [ mkSent (mkEmission "message" (Some data) (JStr t) None)
                         (Some (members (groups w) t)) ])).
Proof.
  intros Hr. unfold handle_message.
  next (getitem_Some _ _ _ w Htoken). by next (contains_present _ _ _ Hr).
Qed.

Lemma handle_typing_str :
  handle_typing sid data w =
    (Ok tt,
     mkWorld (active_rooms w) (groups w)
             (outbox w ++
                [ mkSent (mkEmission "display_typing" (Some ∅) (JStr t) (Some sid))
                         (Some (members (groups w) t ∖ {[ sid ]})) ])).
Proof. unfold handle_typing. by next (getitem_Some _ _ _ w Htoken). Qed.

Lemma handle_stop_typing_str :
  handle_stop_typing sid data w =
    (Ok tt,
     mkWorld (active_rooms w) (groups w)
             (outbox w ++
                [ mkSent (mkEmission "hide_typing" (Some ∅) (JStr t) (Some sid))
                         (Some (members (groups w) t ∖ {[ sid ]})) ])).
Proof. unfold handle_stop_typing. by next (getitem_Some _ _ _ w Htoken). Qed.

Lemma share_metrics_str ping :
  data !! "ping" = Some ping →
  share_metrics sid data w =
    (Ok tt,
     mkWorld (active_rooms w) (groups w)
             (outbox w ++
                [ mkSent (mkEmission "update_peer_metrics"
                            (Some {[ "ping" := ping ]}) (JStr t) (Some sid))
                         (Some (members (groups w) t ∖ {[ sid ]})) ])).
Proof.
  intros Hp. unfold share_metrics.
  next (getitem_Some _ _ _ w Htoken). by next (getitem_Some _ _ _ w Hp).
Qed.
End handlers.

(** ** The relays never write the registry *)

Ltac crush_handler :=
  unfold_monad; unfold getitem, contains, emit, dict_get; unfold_monad;
  repeat (simpl;
          match goal with
          | |- context [ ?d !! ?k ] =>
              lazymatch type of d with
              | gmap string json => destruct (d !! k) as [[]|] eqn:?
              end
          | |- context [ bool_decide ?P ] => destruct (bool_decide P)
          | |- context [ truthy ?j ] => destruct (truthy j)
          end);
  simpl; try reflexivity.

Lemma handle_message_rooms sid data w :
  active_rooms (exec (handle_message sid data) w) = active_rooms w.
Proof. unfold handle_message. crush_handler. Qed.

Lemma confirm_delivery_rooms sid data w :
  active_rooms (exec (confirm_delivery sid data) w) = active_rooms w.
Proof.
  unfold confirm_delivery.
  destruct (truthy (dict_get data "sender_socket_id")); [| reflexivity].
  unfold exec, getitem. destruct (data !! "msg_id"); reflexivity.
Qed.

Lemma handle_typing_rooms sid data w :
  active_rooms (exec (handle_typing sid data) w) = active_rooms w.
Proof. unfold handle_typing. crush_handler. Qed.

Lemma handle_stop_typing_rooms sid data w :
  active_rooms (exec (handle_stop_typing sid data) w) = active_rooms w.
Proof. unfold handle_stop_typing. crush_handler. Qed.

Lemma share_metrics_rooms sid data w :
  active_rooms (exec (share_metrics sid data) w) = active_rooms w.
Proof. unfold share_metrics. crush_handler. Qed.

Lemma ping_check_world now w : ping_check now w = (Ok now, w).
Proof. reflexivity. Qed.

Lemma validate_token_world data now w : exec (validate_token data now) w = w.
Proof.
  unfold validate_token, room_item. crush_handler.
  all: repeat (match goal with
               | |- context [ active_rooms ?w !! ?k ] => destruct (active_rooms w !! k)
               | |- context [ Qgtb ?a ?b ] => destruct (Qgtb a b)
               end; simpl); reflexivity.
Qed.

(** ** The sweeper, one round *)

Lemma lookup_drop_rooms l : ∀ rooms t,
  drop_rooms rooms l !! t = if decide (t ∈ l) then None else rooms !! t.
Proof.
  unfold drop_rooms.
  induction l as [|k l IH]; intros rooms t; simpl.
  - destruct (decide (t ∈ [])) as [H|H]; [set_solver | done].
  - rewrite IH.
    destruct (decide (t ∈ l)) as [H|H], (decide (t ∈ k :: l)) as [H'|H'];
      try done; try set_solver.
    + destruct (decide (t = k)) as [->|Hne]; [apply lookup_delete_eq | set_solver].
    + apply lookup_delete_ne. set_solver.
Qed.

Lemma sweep_token_expired now t r w :
  active_rooms w !! t = Some r → Qgtb now (expiry r) = true →
  sweep_token now t w =
    (Ok tt, mkWorld (delete t (active_rooms w)) (groups w)
                    (outbox w ++ [ notice (groups w) t ])).
Proof.
  intros Hr He. unfold sweep_token.
  next (room_item_present _ _ _ Hr). rewrite He.
  next_eq. unfold del_room.
  erewrite bind_ok by (apply room_item_present; simpl; exact Hr).
  reflexivity.
Qed.

Lemma sweep_token_live now t r w :
  active_rooms w !! t = Some r → Qgtb now (expiry r) = false →
  sweep_token now t w = (Ok tt, w).
Proof.
  intros Hr He. unfold sweep_token.
  next (room_item_present _ _ _ Hr). by rewrite He.
Qed.

Lemma for_each_sweep now rooms : ∀ ks w,
  NoDup ks →
  (∀ k, k ∈ ks → is_Some (rooms !! k) ∧ active_rooms w !! k = rooms !! k) →
  for_each ks (sweep_token now) w =
    (Ok tt,
     mkWorld (drop_rooms (active_rooms w) (List.filter (expired now rooms) ks))
             (groups w)
             (outbox w ++ (notice (groups w) <$> List.filter (expired now rooms) ks))).
Proof.
  induction ks as [|k ks IH]; intros w Hnd Hks.
  - simpl. rewrite app_nil_r. by destruct w.
  - apply NoDup_cons in Hnd as [Hk Hnd].
    destruct (Hks k) as [[r Hr] Hw]; [set_solver |].
    rewrite Hr in Hw. simpl.
    assert (Hex : expired now rooms k = Qgtb now (expiry r))
      by (unfold expired; by rewrite Hr).
    rewrite Hex. destruct (Qgtb now (expiry r)) eqn:He.
    + next (sweep_token_expired _ _ _ _ Hw He).
      rewrite IH; [| done |].
      * unfold drop_rooms. simpl. by rewrite <- app_assoc.
      * intros k' Hk'. destruct (Hks k') as [? Hw']; [set_solver |].
        split; [done |]. simpl. rewrite lookup_delete_ne; [done | set_solver].
    + next (sweep_token_live _ _ _ _ Hw He).
      apply IH; [done |]. intros k' Hk'. apply Hks. set_solver.
Qed.

Lemma NoDup_keys (rooms : gmap string Room) : NoDup (keys rooms).
Proof. apply NoDup_fst_map_to_list. Qed.

Lemma elem_of_keys (rooms : gmap string Room) k : k ∈ keys rooms ↔ is_Some (rooms !! k).
Proof.
  unfold keys. rewrite list_elem_of_fmap. split.
  - intros [[k' r] [-> H]]. apply elem_of_map_to_list in H. by exists r.
  - intros [r H]. exists (k, r). split; [done |]. by apply elem_of_map_to_list.
Qed.

Lemma cleanup_pass_eq now w :
  cleanup_pass now w =
    (Ok tt,
     mkWorld (drop_rooms (active_rooms w) (swept now (active_rooms w)))
             (groups w)
             (outbox w ++ (notice (groups w) <$> swept now (active_rooms w)))).
Proof.
  unfold cleanup_pass. next_eq.
  apply for_each_sweep; [apply NoDup_keys |].
  intros k Hk. split; [by apply elem_of_keys | done].
Qed.

Lemma elem_of_swept now rooms t :
  t ∈ swept now rooms ↔ ∃ r, rooms !! t = Some r ∧ (expiry r < now)%Q.
Proof.
  unfold swept. rewrite list_elem_of_In, filter_In, <- list_elem_of_In, elem_of_keys.
  unfold expired. split.
  - intros [[r Hr] He]. rewrite Hr in He. exists r. split; [done | by apply Qgtb_lt].
  - intros (r & Hr & He). split; [by exists r |]. rewrite Hr. by apply Qgtb_lt.
Qed.

Lemma NoDup_swept now rooms : NoDup (swept now rooms).
Proof.
  unfold swept. apply NoDup_ListNoDup, List.NoDup_filter, NoDup_ListNoDup, NoDup_keys.
Qed.

Lemma cleanup_rooms_total clock : ∀ w, sweeper_alive clock w = true.
Proof.
  unfold sweeper_alive, eval.
  induction clock as [|now later IH]; intros w; [done |].
  cbn [cleanup_rooms]. next (cleanup_pass_eq now w). apply IH.
Qed.

(** ** Every way the registry can change *)

(** The stale room is what a create at time -500 leaves behind. *)
Lemma stale_world_reachable : reachable stale_world.
Proof. exists ∅, [ GenerateToken "T" (-500) ]. reflexivity. Qed.


Lemma on_join_cases sid data w :
  exec (on_join sid data) w = w ∨
  ∃ t r, data !! "token" = Some (JStr t) ∧ active_rooms w !! t = Some r.
Proof.
  destruct (data !! "token") as [tok|] eqn:Htok.
  - destruct tok as [| | | |s| |];
      try (left; unfold exec, on_join; by next (getitem_Some _ _ _ w Htok)).
    destruct (active_rooms w !! s) as [r|] eqn:Hr; [right; eauto |].
    left. unfold exec. by rewrite (on_join_absent _ _ _ _ Htok Hr).
  - left. unfold exec, on_join. by rewrite (bind_raise _ _ _ _ _ (getitem_None _ _ w Htok)).
Qed.

Lemma on_leave_cases sid data w :
  exec (on_leave sid data) w = w ∨
  ∃ t r, data !! "token" = Some (JStr t) ∧ active_rooms w !! t = Some r.
Proof.
  destruct (data !! "token") as [tok|] eqn:Htok.
  - destruct tok as [| | | |s| |];
      try (left; unfold exec, on_leave; by next (getitem_Some _ _ _ w Htok)).
    destruct (active_rooms w !! s) as [r|] eqn:Hr; [right; eauto |].
    left. unfold exec. by rewrite (on_leave_absent _ _ _ _ Htok Hr).
  - left. unfold exec, on_leave. by rewrite (bind_raise _ _ _ _ _ (getitem_None _ _ w Htok)).
Qed.

Lemma generate_token_eq fresh now w :
  generate_token fresh now w =
    (Ok {[ "token" := JStr fresh; "expires_in" := JInt ROOM_TTL ]},
     mkWorld (<[ fresh := mkRoom (now + inject_Z ROOM_TTL) 0 ]> (active_rooms w))
             (groups w) (outbox w)).
Proof. reflexivity. Qed.

Lemma lookup_cleanup_pass now w t :
  active_rooms (exec (cleanup_pass now) w) !! t =
    match active_rooms w !! t with
    | Some r => if Qgtb now (expiry r) then None else Some r
    | None => None
    end.
Proof.
  unfold exec. rewrite cleanup_pass_eq. simpl. rewrite lookup_drop_rooms.
  destruct (decide (t ∈ swept now (active_rooms w))) as [H|H].
  - apply elem_of_swept in H as (r & -> & He). apply Qgtb_lt in He. by rewrite He.
  - destruct (active_rooms w !! t) as [r|] eqn:Hr; [| done].
    destruct (Qgtb now (expiry r)) eqn:He; [| done].
    exfalso. apply H, elem_of_swept. exists r. split; [done | by apply Qgtb_lt].
Qed.

(** A room found after a request was there before, unchanged, unless the
    request created it, or was a join or a leave on it. *)
Lemma step_rooms req w t r' :
  active_rooms (step req w) !! t = Some r' →
  active_rooms w !! t = Some r' ∨
  (∃ now, req = GenerateToken t now ∧ r' = mkRoom (now + inject_Z ROOM_TTL) 0) ∨
  (∃ sid data r, req = Join sid data ∧ data !! "token" = Some (JStr t) ∧
                 active_rooms w !! t = Some r ∧ r' = mkRoom (expiry r) (users r + 1)) ∨
  (∃ sid data r, req = Leave sid data ∧ data !! "token" = Some (JStr t) ∧
                 active_rooms w !! t = Some r ∧
                 r' = mkRoom (expiry r) (Z.max 0 (users r - 1))).
Proof.
  destruct req as [fresh now|data now|sid data|sid data|sid data|sid data
                  |sid data|sid data|now|sid data|now]; unfold step.
  - unfold exec. rewrite generate_token_eq. simpl.
    destruct (decide (fresh = t)) as [->|Hne].
    + rewrite lookup_insert_eq. intros [= <-]. right; left. eauto.
    + rewrite lookup_insert_ne by done. auto.
  - rewrite validate_token_world. auto.
  - destruct (on_join_cases sid data w) as [->|(t0 & r & Htok & Hr)]; [auto |].
    unfold exec. rewrite (on_join_present _ _ _ _ Htok _ Hr). simpl.
    destruct (decide (t0 = t)) as [->|Hne].
    + rewrite lookup_insert_eq. intros [= <-]. right; right; left.
      exists sid, data, r. auto.
    + rewrite lookup_insert_ne by done. auto.
  - destruct (on_leave_cases sid data w) as [->|(t0 & r & Htok & Hr)]; [auto |].
    unfold exec. rewrite (on_leave_present _ _ _ _ Htok _ Hr). simpl.
    destruct (decide (t0 = t)) as [->|Hne].
    + rewrite lookup_insert_eq. intros [= <-]. right; right; right.
      exists sid, data, r. auto.
    + rewrite lookup_insert_ne by done. auto.
  - rewrite handle_message_rooms. auto.
  - rewrite confirm_delivery_rooms. auto.
  - rewrite handle_typing_rooms. auto.
  - rewrite handle_stop_typing_rooms. auto.
  - auto.
  - rewrite share_metrics_rooms. auto.
  - rewrite lookup_cleanup_pass.
    destruct (active_rooms w !! t) as [r|]; [| done].
    destruct (Qgtb now (expiry r)); [done | auto].
Qed.

Lemma run_cons req reqs w : run (req :: reqs) w = run reqs (step req w).
Proof. reflexivity. Qed.

Lemma run_snoc reqs req w : run (reqs ++ [req]) w = step req (run reqs w).
Proof. unfold run. by rewrite foldl_app. Qed.

(** Induction over the requests that led to a reachable state. *)
Lemma reachable_ind (P : World → Prop) :
  (∀ g, P (initial g)) →
  (∀ req w, reachable w → P w → P (step req w)) →
  ∀ w, reachable w → P w.
Proof.
  intros Hinit Hstep w (g & reqs & ->).
  induction reqs as [|req reqs IH] using rev_ind; [apply Hinit |].
  rewrite run_snoc. apply Hstep; [by exists g, reqs | done].
Qed.

Lemma users_nonneg w :
  reachable w → ∀ t r, active_rooms w !! t = Some r → 0 ≤ users r.
Proof.
  intros Hw. induction Hw as [g|req w _ IH] using reachable_ind; intros t r'.
  - simpl. by rewrite lookup_empty.
  - intros H. apply step_rooms in H
      as [H|[(now & _ & ->)|[(sid & data & r & _ & _ & Hr & ->)
                            |(sid & data & r & _ & _ & Hr & ->)]]]; simpl.
    + by apply (IH t).
    + done.
    + specialize (IH _ _ Hr). lia.
    + lia.
Qed.

(** * The claims *)

(** ** C1: the token guard of the relay handlers *)

(** C1, as stated, fails: at time 200 the token "T" names no currently valid
    room (its room expired at 100), yet a join on it joins the transport room,
    increments the count and broadcasts it; and a typing event on "ghost", a
    token that was never in the registry, still emits [display_typing]. *)
Lemma C1_counterexample :
  ¬ valid_room stale_world 200 (JStr "T") ∧
  on_join "a" {[ "token" := JStr "T" ]} stale_world =
    (Ok tt,
     mkWorld {[ "T" := mkRoom 100 1 ]} {[ "T" := {[ "a" ]} ]}
       [ mkSent (mkEmission "update_status" (Some {[ "count" := JInt 1 ]})
                   (JStr "T") None)
                (Some {[ "a" ]}) ]) ∧
  ¬ valid_room stale_world 200 (JStr "ghost") ∧
  handle_typing "a" {[ "token" := JStr "ghost" ]} stale_world =
    (Ok tt,
     mkWorld {[ "T" := mkRoom 100 0 ]} ∅
       [ mkSent (mkEmission "display_typing" (Some ∅) (JStr "ghost") (Some "a"))
                (Some ∅) ]).
Proof.
  split; [| split; [| split]].
  - intros (r & Hr & Hlt). simpl in Hr. rewrite lookup_singleton_eq in Hr.
    injection Hr as <-. simpl in Hlt. lra.
  - rewrite (on_join_present "a" _ "T" stale_world (lookup_singleton_eq _ _)
               (mkRoom 100 0) (lookup_singleton_eq _ _)).
    simpl. rewrite insert_singleton_eq, insert_empty.
    unfold members. rewrite lookup_empty. simpl.
    by rewrite (right_id_L ∅ (∪)).
  - intros (r & Hr & _). simpl in Hr. by rewrite lookup_singleton_ne in Hr.
  - rewrite (handle_typing_str "a" _ "ghost" stale_world (lookup_singleton_eq _ _)).
    simpl. unfold members. rewrite lookup_empty. simpl.
    by rewrite empty_difference_L.
Qed.

(** C1 (amended): join, leave and message are guarded by the presence of the
    token in the registry, not by its expiry.  When the token is not a key of
    the registry the handler changes nothing and sends nothing; when it is a
    key -- whatever its expiry, hence in particular when it names a currently
    valid room -- join and leave adjust the count and the transport room and
    broadcast the new count, and message relays the payload to the room.
    Typing, stop_typing and share_metrics make their delivery when the token
    names a currently valid room, and never change the registry. *)
Theorem C1_token_guard (sid : string) (data : payload) (t : string) (w : World) :
  data !! "token" = Some (JStr t) →
  (active_rooms w !! t = None →
     on_join sid data w = (Ok tt, w) ∧
     on_leave sid data w = (Ok tt, w) ∧
     handle_message sid data w = (Ok tt, w)) ∧
  (∀ r, active_rooms w !! t = Some r →
     on_join sid data w =
       (Ok tt,
        mkWorld (<[ t := mkRoom (expiry r) (users r + 1) ]> (active_rooms w))
                (<[ t := {[ sid ]} ∪ members (groups w) t ]> (groups w))
                (outbox w ++
                   [ mkSent (mkEmission "update_status"
                               (Some {[ "count" := JInt (users r + 1) ]}) (JStr t) None)
                            (Some ({[ sid ]} ∪ members (groups w) t)) ])) ∧
     on_leave sid data w =
       (Ok tt,
        mkWorld (<[ t := mkRoom (expiry r) (Z.max 0 (users r - 1)) ]> (active_rooms w))
                (<[ t := members (groups w) t ∖ {[ sid ]} ]> (groups w))
                (outbox w ++
                   [ mkSent (mkEmission "update_status"
                               (Some {[ "count" := JInt (Z.max 0 (users r - 1)) ]})
                               (JStr t) None)
                            (Some (members (groups w) t ∖ {[ sid ]})) ])) ∧
     handle_message sid data w =
       (Ok tt,
        mkWorld (active_rooms w) (groups w)
                (outbox w ++
                   [ mkSent (mkEmission "message" (Some data) (JStr t) None)
                            (Some (members (groups w) t)) ]))) ∧
  (∀ now, valid_room w now (JStr t) →
     handle_typing sid data w =
       (Ok tt,
        mkWorld (active_rooms w) (groups w)
                (outbox w ++
                   [ mkSent (mkEmission "display_typing" (Some ∅) (JStr t) (Some sid))
                            (Some (members (groups w) t ∖ {[ sid ]})) ])) ∧
     handle_stop_typing sid data w =
       (Ok tt,
        mkWorld (active_rooms w) (groups w)
                (outbox w ++
                   [ mkSent (mkEmission "hide_typing" (Some ∅) (JStr t) (Some sid))
                            (Some (members (groups w) t ∖ {[ sid ]})) ])) ∧
     ∀ ping, data !! "ping" = Some ping →
       share_metrics sid data w =
         (Ok tt,
          mkWorld (active_rooms w) (groups w)
                  (outbox w ++
                     [ mkSent (mkEmission "update_peer_metrics"
                                 (Some {[ "ping" := ping ]}) (JStr t) (Some sid))
                              (Some (members (groups w) t ∖ {[ sid ]})) ]))) ∧
  active_rooms (exec (handle_typing sid data) w) = active_rooms w ∧
  active_rooms (exec (handle_stop_typing sid data) w) = active_rooms w ∧
  active_rooms (exec (share_metrics sid data) w) = active_rooms w.
Proof.
  intros Htoken. split_and!.
  - intros Hno. split_and!.
    + by apply (on_join_absent _ _ t).
    + by apply (on_leave_absent _ _ t).
    + by apply (handle_message_absent _ _ t).
  - intros r Hr. split_and!.
    + by apply on_join_present.
    + by apply on_leave_present.
    + by apply (handle_message_present _ _ _ _ Htoken r).
  - intros now _. split_and!.
    + by apply handle_typing_str.
    + by apply handle_stop_typing_str.
    + intros ping Hp. by apply share_metrics_str.
  - apply handle_typing_rooms.
  - apply handle_stop_typing_rooms.
  - apply share_metrics_rooms.
Qed.

(** The amended C1 at the stale room: the join goes through although the
    room expired. *)
Lemma C1_token_guard_witness :
  ({[ "token" := JStr "T" ]} : payload) !! "token" = Some (JStr "T") ∧
  active_rooms stale_world !! "T" = Some (mkRoom 100 0) ∧
  handle_message "a" {[ "token" := JStr "T" ]} stale_world =
    (Ok tt,
     mkWorld (active_rooms stale_world) (groups stale_world)
       (outbox stale_world ++
          [ mkSent (mkEmission "message" (Some {[ "token" := JStr "T" ]})
                      (JStr "T") None)
                   (Some (members (groups stale_world) "T")) ])).
Proof.
  assert (Htoken : ({[ "token" := JStr "T" ]} : payload) !! "token" = Some (JStr "T"))
    by reflexivity.
  assert (Hroom : active_rooms stale_world !! "T" = Some (mkRoom 100 0))
    by reflexivity.
  split; [exact Htoken |]. split; [exact Hroom |].
  apply (proj1 (proj2 (C1_token_guard "a" _ "T" stale_world Htoken)) _ Hroom).
Defined.

(** ** C3: what one round of the sweeper removes *)

(** C3, as stated, fails on the boundary: the sweeper tests
    [current_time > expiry], so a room whose expiry equals the current time
    ([expiry <= now] holds) is neither removed nor notified. *)
Lemma C3_counterexample :
  active_rooms stale_world !! "T" = Some (mkRoom 100 0) ∧
  (expiry (mkRoom 100 0) <= 100)%Q ∧
  cleanup_pass 100 stale_world = (Ok tt, stale_world).
Proof.
  split; [reflexivity |]. split; [simpl; lra |].
  rewrite cleanup_pass_eq.
  assert (Hnone : swept 100 (active_rooms stale_world) = []).
  { destruct (swept 100 (active_rooms stale_world)) as [|t l] eqn:Hs; [done |].
    assert (Ht : t ∈ swept 100 (active_rooms stale_world)) by (rewrite Hs; left).
    apply elem_of_swept in Ht as (r & Hr & Hlt). simpl in Hr.
    destruct (decide (t = "T")) as [->|Hne].
    - rewrite lookup_singleton_eq in Hr. injection Hr as <-. simpl in Hlt. lra.
    - by rewrite lookup_singleton_ne in Hr. }
  by rewrite Hnone.
Qed.

(** C3 (amended): a round of the sweeper at time [now] returns normally and
    removes exactly the rooms whose expiry is strictly before [now]; for each
    of them exactly one [room_expired] notification is broadcast to that
    room's group, and it is sent while the entry is still in the registry, the
    deletion coming next; rooms with [now <= expiry] are left untouched. *)
Theorem C3_sweep_strict (now : Q) (w : World) :
  cleanup_pass now w =
    (Ok tt,
     mkWorld (drop_rooms (active_rooms w) (swept now (active_rooms w)))
             (groups w)
             (outbox w ++ (notice (groups w) <$> swept now (active_rooms w)))) ∧
  NoDup (swept now (active_rooms w)) ∧
  (∀ t, t ∈ swept now (active_rooms w) ↔
        ∃ r, active_rooms w !! t = Some r ∧ (expiry r < now)%Q) ∧
  (∀ t r, active_rooms w !! t = Some r → (expiry r < now)%Q →
          active_rooms (exec (cleanup_pass now) w) !! t = None) ∧
  (∀ t r, active_rooms w !! t = Some r → (now <= expiry r)%Q →
          active_rooms (exec (cleanup_pass now) w) !! t = Some r) ∧
  (∀ t, active_rooms w !! t = None →
        active_rooms (exec (cleanup_pass now) w) !! t = None) ∧
  (∀ t r w0, active_rooms w0 !! t = Some r → (expiry r < now)%Q →
     active_rooms (exec (socketio_emit "room_expired" None (JStr t)) w0) !! t = Some r ∧
     outbox (exec (socketio_emit "room_expired" None (JStr t)) w0) =
       outbox w0 ++ [ notice (groups w0) t ] ∧
     sweep_token now t w0 =
       del_room t (exec (socketio_emit "room_expired" None (JStr t)) w0)).
Proof.
  split_and!.
  - apply cleanup_pass_eq.
  - apply NoDup_swept.
  - intros t. apply elem_of_swept.
  - intros t r Hr He. rewrite lookup_cleanup_pass, Hr.
    apply Qgtb_lt in He. by rewrite He.
  - intros t r Hr He. rewrite lookup_cleanup_pass, Hr.
    apply Qgtb_le in He. by rewrite He.
  - intros t Hr. by rewrite lookup_cleanup_pass, Hr.
  - intros t r w0 Hr He. split_and!; [done | done |].
    apply Qgtb_lt in He. rewrite (sweep_token_expired _ _ _ _ Hr He).
    unfold del_room.
    erewrite bind_ok by (apply room_item_present; simpl; exact Hr).
    reflexivity.
Qed.

(** The amended C3 at the stale room, swept at time 200. *)
Lemma C3_sweep_strict_witness :
  active_rooms stale_world !! "T" = Some (mkRoom 100 0) ∧
  (expiry (mkRoom 100 0) < 200)%Q ∧
  active_rooms (exec (cleanup_pass 200) stale_world) !! "T" = None.
Proof.
  assert (Hroom : active_rooms stale_world !! "T" = Some (mkRoom 100 0))
    by reflexivity.
  assert (Hlt : (expiry (mkRoom 100 0) < 200)%Q) by reflexivity.
  split; [exact Hroom |]. split; [exact Hlt |].
  apply (proj1 (proj2 (proj2 (proj2 (C3_sweep_strict 200 stale_world))))
           "T" _ Hroom Hlt).
Defined.

(** ** C4: the member count *)

(** C4: in every state reachable from the empty registry every room's count
    is non-negative; a join on a present token adds exactly 1 to its count, a
    leave on a present token subtracts exactly 1 floored at 0; and there is no
    other write: a room found after any request is either unchanged, or was
    just created (count 0), or is the target of that join or leave. *)
Theorem C4_member_count :
  (∀ w, reachable w → ∀ t r, active_rooms w !! t = Some r → 0 ≤ users r) ∧
  (∀ sid data t r w,
     data !! "token" = Some (JStr t) → active_rooms w !! t = Some r →
     active_rooms (exec (on_join sid data) w) !! t =
       Some (mkRoom (expiry r) (users r + 1))) ∧
  (∀ sid data t r w,
     data !! "token" = Some (JStr t) → active_rooms w !! t = Some r →
     active_rooms (exec (on_leave sid data) w) !! t =
       Some (mkRoom (expiry r) (Z.max 0 (users r - 1)))) ∧
  (∀ req w t r',
     active_rooms (step req w) !! t = Some r' →
     active_rooms w !! t = Some r' ∨
     (∃ now, req = GenerateToken t now ∧ r' = mkRoom (now + inject_Z ROOM_TTL) 0) ∨
     (∃ sid data r, req = Join sid data ∧ data !! "token" = Some (JStr t) ∧
                    active_rooms w !! t = Some r ∧
                    r' = mkRoom (expiry r) (users r + 1)) ∨
     (∃ sid data r, req = Leave sid data ∧ data !! "token" = Some (JStr t) ∧
                    active_rooms w !! t = Some r ∧
                    r' = mkRoom (expiry r) (Z.max 0 (users r - 1)))).
Proof.
  split_and!.
  - apply users_nonneg.
  - intros sid data t r w Htok Hr. unfold exec.
    rewrite (on_join_present _ _ _ _ Htok _ Hr). simpl. apply lookup_insert_eq.
  - intros sid data t r w Htok Hr. unfold exec.
    rewrite (on_leave_present _ _ _ _ Htok _ Hr). simpl. apply lookup_insert_eq.
  - apply step_rooms.
Qed.

(** C4 on that run: the second leave finds the count at 0 and leaves it
    there. *)
Lemma C4_member_count_witness :
  reachable left_twice ∧
  active_rooms left_twice !! "T" = Some (mkRoom (0 + inject_Z ROOM_TTL) 0) ∧
  0 ≤ users (mkRoom (0 + inject_Z ROOM_TTL) 0).
Proof.
  assert (Hreach : reachable left_twice) by (eexists _, _; reflexivity).
  assert (Hroom : active_rooms left_twice !! "T" =
                    Some (mkRoom (0 + inject_Z ROOM_TTL) 0))
    by (vm_compute; reflexivity).
  split; [exact Hreach |]. split; [exact Hroom |].
  apply (proj1 C4_member_count left_twice Hreach "T" _ Hroom).
Defined.

(** Joins handled one after the other are all counted. *)
Lemma sequential_joins (sids : list string) (data : payload) t : ∀ w r,
  data !! "token" = Some (JStr t) → active_rooms w !! t = Some r →
  active_rooms (run ((λ sid, Join sid data) <$> sids) w) !! t =
    Some (mkRoom (expiry r) (users r + Z.of_nat (length sids))).
Proof.
  induction sids as [|sid sids IH]; intros w r Htok Hr.
  - simpl. rewrite Hr. f_equal. destruct r. simpl. f_equal. lia.
  - assert (Hr' : active_rooms (step (Join sid data) w) !! t =
                    Some (mkRoom (expiry r) (users r + 1))).
    { unfold step, exec. rewrite (on_join_present _ _ _ _ Htok _ Hr). simpl.
      apply lookup_insert_eq. }
    rewrite fmap_cons, run_cons, (IH _ _ Htok Hr'). cbn [expiry users length].
    f_equal. f_equal. lia.
Qed.

(** ** C5 and C10: the validate endpoint *)

Lemma validate_token_valid data t r now w :
  data !! "token" = Some (JStr t) → active_rooms w !! t = Some r →
  (now < expiry r)%Q →
  validate_token data now w =
    (Ok {[ "valid" := JBool true; "remaining" := JFloat (expiry r - now) ]}, w).
Proof.
  intros Htok Hr Hlt. unfold validate_token, dict_get. rewrite Htok. simpl.
  next (contains_present _ _ _ Hr). next (room_item_present _ _ _ Hr).
  assert (He : Qgtb (expiry r - now) 0 = true) by (apply Qgtb_lt; lra).
  by rewrite He.
Qed.

Lemma validate_token_expired data t r now w :
  data !! "token" = Some (JStr t) → active_rooms w !! t = Some r →
  (expiry r <= now)%Q →
  validate_token data now w = (Ok {[ "valid" := JBool false ]}, w).
Proof.
  intros Htok Hr Hle. unfold validate_token, dict_get. rewrite Htok. simpl.
  next (contains_present _ _ _ Hr). next (room_item_present _ _ _ Hr).
  assert (He : Qgtb (expiry r - now) 0 = false) by (apply Qgtb_le; lra).
  by rewrite He.
Qed.

Lemma validate_token_absent data t now w :
  data !! "token" = Some (JStr t) → active_rooms w !! t = None →
  validate_token data now w = (Ok {[ "valid" := JBool false ]}, w).
Proof.
  intros Htok Hr. unfold validate_token, dict_get. rewrite Htok. simpl.
  by next (contains_absent _ _ Hr).
Qed.

Lemma validate_token_missing data now w :
  data !! "token" = None →
  validate_token data now w = (Ok {[ "valid" := JBool false ]}, w).
Proof. intros Htok. unfold validate_token, dict_get. by rewrite Htok. Qed.









(** C10: a validate request whose JSON object has no ["token"] key returns
    [{valid: false}] normally, leaving the state as it was: the same answer
    as for a token that is not in the registry. *)
Theorem C10_validate_missing_token (data : payload) (now : Q) (w : World) :
  data !! "token" = None →
  validate_token data now w = (Ok {[ "valid" := JBool false ]}, w) ∧
  ∀ t, active_rooms w !! t = None →
       validate_token {[ "token" := JStr t ]} now w = validate_token data now w.
Proof.
  intros Hno. rewrite (validate_token_missing _ _ _ Hno). split; [done |].
  intros t Ht. apply (validate_token_absent _ t); [apply lookup_singleton_eq | done].
Qed.

(** C10 at the empty JSON object. *)
Lemma C10_validate_missing_token_witness :
  (∅ : payload) !! "token" = None ∧
  validate_token ∅ 0 stale_world = (Ok {[ "valid" := JBool false ]}, stale_world).
Proof.
  assert (Hno : (∅ : payload) !! "token" = None) by reflexivity.
  split; [exact Hno |].
  apply (proj1 (C10_validate_missing_token ∅ 0%Q stale_world Hno)).
Defined.

(** ** C6: delivery confirmations *)

Lemma dict_get_Some (data : payload) k v : data !! k = Some v → dict_get data k = v.
Proof. intros H. unfold dict_get. by rewrite H. Qed.

Lemma truthy_str s : s ≠ "" → truthy (JStr s) = true.
Proof. intros H. simpl. apply negb_true_iff. by apply String.eqb_neq. Qed.

(** What confirm_delivery sends: with a sender id that is a non-empty string
    and a [msg_id], one [msg_delivered] to the transport room named by the
    sender id, whoever is in it; without a sender id, nothing. *)
Lemma confirm_delivery_emits (sid : string) (data : payload) (w : World) :
  (∀ target msg_id,
     data !! "sender_socket_id" = Some (JStr target) → target ≠ "" →
     data !! "msg_id" = Some msg_id →
     confirm_delivery sid data w =
       (Ok tt,
        mkWorld (active_rooms w) (groups w)
                (outbox w ++
                   [ mkSent (mkEmission "msg_delivered"
                               (Some {[ "msg_id" := msg_id ]}) (JStr target) None)
                            (Some (members (groups w) target)) ]))) ∧
  (data !! "sender_socket_id" = None → confirm_delivery sid data w = (Ok tt, w)).
Proof.
  split.
  - intros target msg_id Htarget Hne Hmsg.
    unfold confirm_delivery. cbv zeta.
    rewrite (dict_get_Some _ _ _ Htarget), (truthy_str _ Hne).
    by next (getitem_Some _ _ _ w Hmsg).
  - intros Hno. unfold confirm_delivery, dict_get. by rewrite Hno.
Qed.

(** C6 fails on the code: the handler passes whatever the client sent as
    [sender_socket_id] to [emit] as the room, without checking that it is a
    connection id.  In the reachable state where "s1" and "s2" have joined
    room "T", a confirm_delivery whose [sender_socket_id] is the room token
    "T" is broadcast to the whole room: [msg_delivered] reaches both "s1" and
    "s2", not one connection. *)
Theorem C6_delivered_to_whole_room :
  reachable chat_room ∧
  members (groups chat_room) "T" = {[ "s1"; "s2" ]} ∧
  confirm_delivery "s2" {[ "sender_socket_id" := JStr "T"; "msg_id" := JInt 7 ]}
      chat_room =
    (Ok tt,
     mkWorld (active_rooms chat_room) (groups chat_room)
       (outbox chat_room ++
          [ mkSent (mkEmission "msg_delivered" (Some {[ "msg_id" := JInt 7 ]})
                      (JStr "T") None)
                   (Some {[ "s1"; "s2" ]}) ])).
Proof.
  assert (Hroom : members (groups chat_room) "T" = {[ "s1"; "s2" ]})
    by (vm_compute; reflexivity).
  split_and!.
  - eexists _, _. reflexivity.
  - exact Hroom.
  - rewrite <- Hroom.
    apply (proj1 (confirm_delivery_emits "s2" _ chat_room) "T" (JInt 7));
      [reflexivity | discriminate | reflexivity].
Qed.

(** ** C7: typing and metrics are not echoed *)

(** C7: a typing, stop_typing or share_metrics event on token [t] makes one
    emission ([display_typing], [hide_typing], [update_peer_metrics]) whose
    receivers are the members of room [t] other than the sender: every other
    member receives it and the sending connection never does. *)
Theorem C7_no_echo (sid : string) (data : payload) (t : string) (w : World) :
  data !! "token" = Some (JStr t) →
  handle_typing sid data w =
    (Ok tt,
     mkWorld (active_rooms w) (groups w)
             (outbox w ++
                [ mkSent (mkEmission "display_typing" (Some ∅) (JStr t) (Some sid))
                         (Some (members (groups w) t ∖ {[ sid ]})) ])) ∧
  handle_stop_typing sid data w =
    (Ok tt,
     mkWorld (active_rooms w) (groups w)
             (outbox w ++
                [ mkSent (mkEmission "hide_typing" (Some ∅) (JStr t) (Some sid))
                         (Some (members (groups w) t ∖ {[ sid ]})) ])) ∧
  (∀ ping, data !! "ping" = Some ping →
     share_metrics sid data w =
       (Ok tt,
        mkWorld (active_rooms w) (groups w)
                (outbox w ++
                   [ mkSent (mkEmission "update_peer_metrics"
                               (Some {[ "ping" := ping ]}) (JStr t) (Some sid))
                            (Some (members (groups w) t ∖ {[ sid ]})) ]))) ∧
  (sid ∉ members (groups w) t ∖ {[ sid ]}) ∧
  (∀ other, other ∈ members (groups w) t → other ≠ sid →
            other ∈ members (groups w) t ∖ {[ sid ]}).
Proof.
  intros Htok. split_and!.
  - by apply handle_typing_str.
  - by apply handle_stop_typing_str.
  - intros ping Hp. by apply share_metrics_str.
  - set_solver.
  - set_solver.
Qed.

(** C7 when "s1" types in room "T". *)
Lemma C7_no_echo_witness :
  ({[ "token" := JStr "T" ]} : payload) !! "token" = Some (JStr "T") ∧
  handle_typing "s1" {[ "token" := JStr "T" ]} two_peers =
    (Ok tt,
     mkWorld (active_rooms two_peers) (groups two_peers)
       (outbox two_peers ++
          [ mkSent (mkEmission "display_typing" (Some ∅) (JStr "T") (Some "s1"))
                   (Some (members (groups two_peers) "T" ∖ {[ "s1" ]})) ])).
Proof.
  assert (Htok : ({[ "token" := JStr "T" ]} : payload) !! "token" = Some (JStr "T"))
    by reflexivity.
  split; [exact Htok |].
  apply (proj1 (C7_no_echo "s1" _ "T" two_peers Htok)).
Defined.

(** ** C8: payloads with a missing field *)

(** C8 fails on the code: [data['token']], [data['ping']] and
    [data['msg_id']] raise [KeyError] when the field is missing, so the
    handler ends with an exception instead of ignoring the event. *)
Theorem C8_missing_field_raises (sid : string) (w : World) :
  on_join sid ∅ w = (Raise (KeyError (JStr "token")), w) ∧
  on_leave sid ∅ w = (Raise (KeyError (JStr "token")), w) ∧
  handle_message sid ∅ w = (Raise (KeyError (JStr "token")), w) ∧
  handle_typing sid ∅ w = (Raise (KeyError (JStr "token")), w) ∧
  handle_stop_typing sid ∅ w = (Raise (KeyError (JStr "token")), w) ∧
  share_metrics sid ∅ w = (Raise (KeyError (JStr "token")), w) ∧
  share_metrics sid {[ "token" := JStr "T" ]} w = (Raise (KeyError (JStr "ping")), w) ∧
  confirm_delivery sid {[ "sender_socket_id" := JStr "s1" ]} w =
    (Raise (KeyError (JStr "msg_id")), w).
Proof. split_and!; reflexivity. Qed.

(** ** C9: the relays leave the registry alone *)

(** C9: message, typing, stop_typing, confirm_delivery, ping_check and
    share_metrics leave the registry exactly as it was, whatever the payload
    and whether or not the handler raises: same keys, same expiry and count
    in every room.  Moreover no request at all other than a re-creation of
    the token changes the expiry of a room that is still there afterwards. *)
Theorem C9_relays_keep_registry :
  (∀ sid data w, active_rooms (exec (handle_message sid data) w) = active_rooms w) ∧
  (∀ sid data w, active_rooms (exec (handle_typing sid data) w) = active_rooms w) ∧
  (∀ sid data w, active_rooms (exec (handle_stop_typing sid data) w) = active_rooms w) ∧
  (∀ sid data w, active_rooms (exec (confirm_delivery sid data) w) = active_rooms w) ∧
  (∀ now w, active_rooms (exec (ping_check now) w) = active_rooms w) ∧
  (∀ sid data w, active_rooms (exec (share_metrics sid data) w) = active_rooms w) ∧
  (∀ req w t r r',
     (∀ now, req ≠ GenerateToken t now) →
     active_rooms w !! t = Some r → active_rooms (step req w) !! t = Some r' →
     expiry r' = expiry r).
Proof.
  split_and!.
  - apply handle_message_rooms.
  - apply handle_typing_rooms.
  - apply handle_stop_typing_rooms.
  - apply confirm_delivery_rooms.
  - done.
  - apply share_metrics_rooms.
  - intros req w t r r' Hreq Hr Hr'.
    apply step_rooms in Hr'
      as [H|[(now & -> & _)|[(? & ? & r0 & _ & _ & H & ->)|(? & ? & r0 & _ & _ & H & ->)]]].
    + congruence.
    + by destruct (Hreq now).
    + simpl. congruence.
    + simpl. congruence.
Qed.

(** C9 on a join of the stale room: the expiry stays at 100. *)
Lemma C9_relays_keep_registry_witness :
  let req := Join "a" {[ "token" := JStr "T" ]} in
  (∀ now, req ≠ GenerateToken "T" now) ∧
  active_rooms stale_world !! "T" = Some (mkRoom 100 0) ∧
  active_rooms (step req stale_world) !! "T" = Some (mkRoom 100 1) ∧
  expiry (mkRoom 100 1) = expiry (mkRoom 100 0).
Proof.
  intros req.
  assert (Hreq : ∀ now, req ≠ GenerateToken "T" now) by (intros now; discriminate).
  assert (Hr : active_rooms stale_world !! "T" = Some (mkRoom 100 0)) by reflexivity.
  assert (Hr' : active_rooms (step req stale_world) !! "T" = Some (mkRoom 100 1))
    by (vm_compute; reflexivity).
  split_and!; [exact Hreq | exact Hr | exact Hr' |].
  apply (proj2 (proj2 (proj2 (proj2 (proj2 (proj2 C9_relays_keep_registry)))))
           req stale_world "T" _ _ Hreq Hr Hr').
Defined.

(** * Further properties of the code *)

(** ** Joins and leaves in sequence *)

Lemma run_app reqs1 reqs2 w : run (reqs1 ++ reqs2) w = run reqs2 (run reqs1 w).
Proof. unfold run. apply foldl_app. Qed.

Lemma step_join_present sid data t r w :
  data !! "token" = Some (JStr t) → active_rooms w !! t = Some r →
  step (Join sid data) w =
    mkWorld (<[ t := mkRoom (expiry r) (users r + 1) ]> (active_rooms w))
            (<[ t := {[ sid ]} ∪ members (groups w) t ]> (groups w))
            (outbox w ++ [ status_sent t (users r + 1) ({[ sid ]} ∪ members (groups w) t) ]).
Proof.
  intros Htok Hr. unfold step, exec. by rewrite (on_join_present _ _ _ _ Htok _ Hr).
Qed.

Lemma step_leave_present sid data t r w :
  data !! "token" = Some (JStr t) → active_rooms w !! t = Some r →
  step (Leave sid data) w =
    mkWorld (<[ t := mkRoom (expiry r) (Z.max 0 (users r - 1)) ]> (active_rooms w))
            (<[ t := members (groups w) t ∖ {[ sid ]} ]> (groups w))
            (outbox w ++
               [ status_sent t (Z.max 0 (users r - 1)) (members (groups w) t ∖ {[ sid ]}) ]).
Proof.
  intros Htok Hr. unfold step, exec. by rewrite (on_leave_present _ _ _ _ Htok _ Hr).
Qed.

Lemma rooms_after_joins data t : ∀ sids w r,
  data !! "token" = Some (JStr t) → active_rooms w !! t = Some r →
  active_rooms (run (joins sids data) w) =
    <[ t := mkRoom (expiry r) (users r + Z.of_nat (length sids)) ]> (active_rooms w).
Proof.
  induction sids as [|sid sids IH]; intros w r Htok Hr.
  - simpl. rewrite insert_id; [done |]. rewrite Hr. destruct r. simpl.
    by rewrite Z.add_0_r.
  - unfold joins. rewrite fmap_cons, run_cons. fold (joins sids data).
    rewrite (IH _ (mkRoom (expiry r) (users r + 1)) Htok).
    + rewrite (step_join_present _ _ _ _ _ Htok Hr). simpl.
      rewrite insert_insert_eq. do 2 f_equal. lia.
    + rewrite (step_join_present _ _ _ _ _ Htok Hr). simpl. apply lookup_insert_eq.
Qed.

Lemma rooms_after_leaves data t : ∀ sids w r,
  data !! "token" = Some (JStr t) → active_rooms w !! t = Some r → 0 ≤ users r →
  active_rooms (run (leaves sids data) w) =
    <[ t := mkRoom (expiry r) (Z.max 0 (users r - Z.of_nat (length sids))) ]>
      (active_rooms w).
Proof.
  induction sids as [|sid sids IH]; intros w r Htok Hr Hpos.
  - simpl. rewrite insert_id; [done |]. rewrite Hr. destruct r. simpl in *.
    do 2 f_equal. lia.
  - unfold leaves. rewrite fmap_cons, run_cons. fold (leaves sids data).
    rewrite (IH _ (mkRoom (expiry r) (Z.max 0 (users r - 1))) Htok).
    + rewrite (step_leave_present _ _ _ _ _ Htok Hr). simpl.
      rewrite insert_insert_eq. do 2 f_equal. lia.
    + rewrite (step_leave_present _ _ _ _ _ Htok Hr). simpl. apply lookup_insert_eq.
    + simpl. lia.
Qed.

(** X1: when as many leaves as joins follow one another on a room that is in
    the registry (with a count that is not negative), whoever sends them, the
    registry ends exactly as it started. *)
Theorem X1_joins_then_leaves_restore (joiners leavers : list string)
    (data : payload) (t : string) (r : Room) (w : World) :
  data !! "token" = Some (JStr t) → active_rooms w !! t = Some r →
  0 ≤ users r → length joiners = length leavers →
  active_rooms (run (joins joiners data ++ leaves leavers data) w) = active_rooms w.
Proof.
  intros Htok Hr Hpos Hlen. rewrite run_app.
  assert (Hmid : active_rooms (run (joins joiners data) w) !! t =
                   Some (mkRoom (expiry r) (users r + Z.of_nat (length joiners)))).
  { rewrite (rooms_after_joins _ _ _ _ _ Htok Hr). apply lookup_insert_eq. }
  rewrite (rooms_after_leaves _ _ _ _ _ Htok Hmid); [| simpl; lia].
  rewrite (rooms_after_joins _ _ _ _ _ Htok Hr), insert_insert_eq. simpl.
  apply insert_id. rewrite Hr. destruct r. simpl in *. do 2 f_equal. lia.
Qed.

(** X1 on the room with two peers: "a" and "b" join, then "b" and "c" leave. *)
Lemma X1_joins_then_leaves_restore_witness :
  let data : payload := {[ "token" := JStr "T" ]} in
  data !! "token" = Some (JStr "T") ∧
  active_rooms two_peers !! "T" = Some (mkRoom 600 2) ∧
  0 ≤ users (mkRoom 600 2) ∧ length [ "a"; "b" ] = length [ "b"; "c" ] ∧
  active_rooms (run (joins [ "a"; "b" ] data ++ leaves [ "b"; "c" ] data) two_peers)
    = active_rooms two_peers.
Proof.
  intros data.
  assert (Htok : data !! "token" = Some (JStr "T")) by reflexivity.
  assert (Hr : active_rooms two_peers !! "T" = Some (mkRoom 600 2)) by reflexivity.
  assert (Hpos : 0 ≤ users (mkRoom 600 2)) by (simpl; lia).
  assert (Hlen : length [ "a"; "b" ] = length [ "b"; "c" ]) by reflexivity.
  split_and!; [exact Htok | exact Hr | exact Hpos | exact Hlen |].
  apply (X1_joins_then_leaves_restore _ _ data "T" _ two_peers Htok Hr Hpos Hlen).
Defined.

(** X2: any number of leaves in a row on a room that is in the registry
    brings its count down by that number but never below 0, and leaves its
    expiry and every other room alone: leaves in excess are absorbed. *)
Theorem X2_leaves_floor (leavers : list string) (data : payload) (t : string)
    (r : Room) (w : World) :
  data !! "token" = Some (JStr t) → active_rooms w !! t = Some r → 0 ≤ users r →
  active_rooms (run (leaves leavers data) w) !! t =
    Some (mkRoom (expiry r) (Z.max 0 (users r - Z.of_nat (length leavers)))) ∧
  (∀ t', t' ≠ t →
         active_rooms (run (leaves leavers data) w) !! t' = active_rooms w !! t').
Proof.
  intros Htok Hr Hpos. rewrite (rooms_after_leaves _ _ _ _ _ Htok Hr Hpos). split.
  - apply lookup_insert_eq.
  - intros t' Hne. by apply lookup_insert_ne.
Qed.

(** X2 on the room with two peers, left three times: the count stops at 0. *)
Lemma X2_leaves_floor_witness :
  let data : payload := {[ "token" := JStr "T" ]} in
  data !! "token" = Some (JStr "T") ∧
  active_rooms two_peers !! "T" = Some (mkRoom 600 2) ∧ 0 ≤ users (mkRoom 600 2) ∧
  active_rooms (run (leaves [ "s1"; "s2"; "s1" ] data) two_peers) !! "T" =
    Some (mkRoom 600 (Z.max 0 (2 - 3))).
Proof.
  intros data.
  assert (Htok : data !! "token" = Some (JStr "T")) by reflexivity.
  assert (Hr : active_rooms two_peers !! "T" = Some (mkRoom 600 2)) by reflexivity.
  assert (Hpos : 0 ≤ users (mkRoom 600 2)) by (simpl; lia).
  split_and!; [exact Htok | exact Hr | exact Hpos |].
  apply (proj1 (X2_leaves_floor [ "s1"; "s2"; "s1" ] data "T" _ two_peers Htok Hr Hpos)).
Defined.

(** ** The count against the transport room *)

(** X3: a join is counted every time it is handled: when the same connection
    joins a room twice, the count goes up by 2 while the transport room, a
    set, holds the connection once; if it was a member already, the membership
    does not change at all. *)
Theorem X3_join_counts_every_call (sid : string) (data : payload) (t : string)
    (r : Room) (w : World) :
  data !! "token" = Some (JStr t) → active_rooms w !! t = Some r →
  active_rooms (run (joins [ sid; sid ] data) w) !! t =
    Some (mkRoom (expiry r) (users r + 2)) ∧
  members (groups (run (joins [ sid; sid ] data) w)) t = {[ sid ]} ∪ members (groups w) t ∧
  (sid ∈ members (groups w) t →
   members (groups (run (joins [ sid; sid ] data) w)) t = members (groups w) t).
Proof.
  intros Htok Hr.
  assert (Hr1 : active_rooms (step (Join sid data) w) !! t =
                  Some (mkRoom (expiry r) (users r + 1))).
  { rewrite (step_join_present _ _ _ _ _ Htok Hr). apply lookup_insert_eq. }
  assert (Hg : members (groups (run (joins [ sid; sid ] data) w)) t =
                 {[ sid ]} ∪ members (groups w) t).
  { change (run (joins [ sid; sid ] data) w)
      with (step (Join sid data) (step (Join sid data) w)).
    rewrite (step_join_present _ _ _ _ _ Htok Hr1),
      (step_join_present _ _ _ _ _ Htok Hr). simpl.
    rewrite !members_insert_eq. set_solver. }
  split_and!.
  - rewrite (rooms_after_joins _ _ _ _ _ Htok Hr). apply lookup_insert_eq.
  - exact Hg.
  - intros Hin. rewrite Hg. set_solver.
Qed.

(** X3 when "s1", already in room "T", joins it twice more. *)
Lemma X3_join_counts_every_call_witness :
  let data : payload := {[ "token" := JStr "T" ]} in
  data !! "token" = Some (JStr "T") ∧
  active_rooms two_peers !! "T" = Some (mkRoom 600 2) ∧
  active_rooms (run (joins [ "s1"; "s1" ] data) two_peers) !! "T" =
    Some (mkRoom 600 (2 + 2)).
Proof.
  intros data.
  assert (Htok : data !! "token" = Some (JStr "T")) by reflexivity.
  assert (Hr : active_rooms two_peers !! "T" = Some (mkRoom 600 2)) by reflexivity.
  split_and!; [exact Htok | exact Hr |].
  apply (proj1 (X3_join_counts_every_call "s1" data "T" _ two_peers Htok Hr)).
Defined.

(** X4: a leave is not checked against the membership: a connection that is
    not in the transport room of a registered token still lowers its count
    (floored at 0), and the room keeps the members it had. *)
Theorem X4_leave_by_stranger (sid : string) (data : payload) (t : string)
    (r : Room) (w : World) :
  data !! "token" = Some (JStr t) → active_rooms w !! t = Some r →
  sid ∉ members (groups w) t →
  active_rooms (step (Leave sid data) w) !! t =
    Some (mkRoom (expiry r) (Z.max 0 (users r - 1))) ∧
  members (groups (step (Leave sid data) w)) t = members (groups w) t.
Proof.
  intros Htok Hr Hout. rewrite (step_leave_present _ _ _ _ _ Htok Hr). simpl. split.
  - apply lookup_insert_eq.
  - rewrite members_insert_eq. set_solver.
Qed.

(** X4 when "s3", who never joined, leaves the room of the two peers. *)
Lemma X4_leave_by_stranger_witness :
  let data : payload := {[ "token" := JStr "T" ]} in
  data !! "token" = Some (JStr "T") ∧
  active_rooms two_peers !! "T" = Some (mkRoom 600 2) ∧
  ("s3" ∉ members (groups two_peers) "T") ∧
  active_rooms (step (Leave "s3" data) two_peers) !! "T" =
    Some (mkRoom 600 (Z.max 0 (2 - 1))).
Proof.
  intros data.
  assert (Htok : data !! "token" = Some (JStr "T")) by reflexivity.
  assert (Hr : active_rooms two_peers !! "T" = Some (mkRoom 600 2)) by reflexivity.
  assert (Hout : "s3" ∉ members (groups two_peers) "T") by (vm_compute; set_solver).
  split_and!; [exact Htok | exact Hr | exact Hout |].
  apply (proj1 (X4_leave_by_stranger "s3" data "T" _ two_peers Htok Hr Hout)).
Defined.

(** ** Creating a room *)

(** X5: after a create, two joins on the new token whose transport room was
    empty: the count is 2, and exactly two [update_status] broadcasts were
    made, count 1 received by the first joiner alone, then count 2 received
    by both. *)
Theorem X5_create_then_two_joins (t : string) (now : Q) (a b : string)
    (data : payload) (w : World) :
  data !! "token" = Some (JStr t) → members (groups w) t = ∅ →
  active_rooms (run (GenerateToken t now :: joins [ a; b ] data) w) !! t =
    Some (mkRoom (now + inject_Z ROOM_TTL) 2) ∧
  outbox (run (GenerateToken t now :: joins [ a; b ] data) w) =
    outbox w ++ [ status_sent t 1 {[ a ]}; status_sent t 2 {[ a; b ]} ].
Proof.
  intros Htok Hempty.
  set (w0 := step (GenerateToken t now) w).
  assert (Hr0 : active_rooms w0 !! t = Some (mkRoom (now + inject_Z ROOM_TTL) 0))
    by apply lookup_insert_eq.
  assert (Hr1 : active_rooms (step (Join a data) w0) !! t =
                  Some (mkRoom (now + inject_Z ROOM_TTL) 1)).
  { rewrite (step_join_present _ _ _ _ _ Htok Hr0). apply lookup_insert_eq. }
  rewrite run_cons. fold w0. split.
  - rewrite (rooms_after_joins _ _ _ _ _ Htok Hr0). apply lookup_insert_eq.
  - change (run (joins [ a; b ] data) w0)
      with (step (Join b data) (step (Join a data) w0)).
    rewrite (step_join_present _ _ _ _ _ Htok Hr1),
      (step_join_present _ _ _ _ _ Htok Hr0). simpl.
    rewrite members_insert_eq. change (groups w0) with (groups w).
    change (outbox w0) with (outbox w). rewrite Hempty, <- app_assoc. simpl.
    do 2 f_equal; [| f_equal]; unfold status_sent; do 2 f_equal; set_solver.
Qed.

(** X5 from the empty registry. *)
Lemma X5_create_then_two_joins_witness :
  let data : payload := {[ "token" := JStr "T" ]} in
  data !! "token" = Some (JStr "T") ∧ members (groups (initial ∅)) "T" = ∅ ∧
  outbox (run (GenerateToken "T" 0 :: joins [ "a"; "b" ] data) (initial ∅)) =
    outbox (initial ∅) ++ [ status_sent "T" 1 {[ "a" ]}; status_sent "T" 2 {[ "a"; "b" ]} ].
Proof.
  intros data.
  assert (Htok : data !! "token" = Some (JStr "T")) by reflexivity.
  assert (Hempty : members (groups (initial ∅)) "T" = ∅) by reflexivity.
  split_and!; [exact Htok | exact Hempty |].
  apply (proj2 (X5_create_then_two_joins "T" 0%Q "a" "b" data (initial ∅) Htok Hempty)).
Defined.

(** X6: a create installs under its token a room with count 0 and expiry
    now + ROOM_TTL whatever was registered under that token before (a room
    already there is replaced and its count reset), answers with the token and
    the TTL, keeps every other room and the membership of every transport
    room, and sends nothing; of two creates of one token the later one alone
    shows. *)
Theorem X6_create_overwrites (t : string) (now : Q) (w : World) :
  eval (generate_token t now) w =
    Ok {[ "token" := JStr t; "expires_in" := JInt 600 ]} ∧
  active_rooms (exec (generate_token t now) w) !! t =
    Some (mkRoom (now + inject_Z ROOM_TTL) 0) ∧
  (∀ t', t' ≠ t →
         active_rooms (exec (generate_token t now) w) !! t' = active_rooms w !! t') ∧
  groups (exec (generate_token t now) w) = groups w ∧
  outbox (exec (generate_token t now) w) = outbox w ∧
  (∀ later, exec (generate_token t later) (exec (generate_token t now) w) =
            exec (generate_token t later) w).
Proof.
  unfold exec, eval. split_and!; try done.
  - apply lookup_insert_eq.
  - intros t' Hne. by apply lookup_insert_ne.
  - intros later. rewrite !generate_token_eq. simpl. by rewrite insert_insert_eq.
Qed.

(** X6 when the room of the two peers is created again at time 1000: its
    count is back to 0, and no room appears under "s1". *)
Lemma X6_create_overwrites_witness :
  "s1" ≠ "T" ∧
  active_rooms (exec (generate_token "T" 1000) two_peers) !! "T" =
    Some (mkRoom (1000 + inject_Z ROOM_TTL) 0) ∧
  active_rooms (exec (generate_token "T" 1000) two_peers) !! "s1" =
    active_rooms two_peers !! "s1".
Proof.
  assert (Hne : "s1" ≠ "T") by discriminate.
  split; [exact Hne |].
  split; [apply (X6_create_overwrites "T" 1000%Q two_peers) |].
  apply (proj1 (proj2 (proj2 (X6_create_overwrites "T" 1000%Q two_peers))) "s1" Hne).
Defined.

(** ** The sweeper over time *)

Lemma world_eta w : mkWorld (active_rooms w) (groups w) (outbox w ++ []) = w.
Proof. destruct w. simpl. by rewrite app_nil_r. Qed.

Lemma cleanup_pass_exec now w : cleanup_pass now w = (Ok tt, exec (cleanup_pass now) w).
Proof. unfold exec. by rewrite cleanup_pass_eq. Qed.

Lemma groups_cleanup_pass now w : groups (exec (cleanup_pass now) w) = groups w.
Proof. unfold exec. by rewrite cleanup_pass_eq. Qed.

Lemma outbox_cleanup_pass now w :
  outbox (exec (cleanup_pass now) w) =
    outbox w ++ (notice (groups w) <$> swept now (active_rooms w)).
Proof. unfold exec. by rewrite cleanup_pass_eq. Qed.

Lemma lookup_cleanup_pass_Some now w t r :
  active_rooms (exec (cleanup_pass now) w) !! t = Some r ↔
  active_rooms w !! t = Some r ∧ (now <= expiry r)%Q.
Proof.
  rewrite lookup_cleanup_pass. destruct (active_rooms w !! t) as [r0|].
  - destruct (Qgtb now (expiry r0)) eqn:He.
    + apply Qgtb_lt in He. split; [done |]. intros [[= ->] Hle]. lra.
    + apply Qgtb_le in He. split.
      * intros [= ->]. done.
      * by intros [? _].
  - split; [done | by intros [? _]].
Qed.

Lemma swept_none s rooms :
  (∀ t r, rooms !! t = Some r → (s <= expiry r)%Q) → swept s rooms = [].
Proof.
  intros Hlive. destruct (swept s rooms) as [|t l] eqn:Hs; [done |].
  assert (Ht : t ∈ swept s rooms) by (rewrite Hs; left).
  apply elem_of_swept in Ht as (r & Hr & Hlt). specialize (Hlive _ _ Hr). lra.
Qed.

Lemma cleanup_rooms_eq : ∀ clock w,
  ∃ rooms' l,
    cleanup_rooms clock w =
      (Ok tt, mkWorld rooms' (groups w) (outbox w ++ (notice (groups w) <$> l))) ∧
    NoDup l ∧
    (∀ t, t ∈ l ↔ ∃ r now, active_rooms w !! t = Some r ∧ now ∈ clock ∧
                           (expiry r < now)%Q) ∧
    (∀ t r, rooms' !! t = Some r ↔
            active_rooms w !! t = Some r ∧ ∀ now, now ∈ clock → (now <= expiry r)%Q).
Proof.
  induction clock as [|now later IH]; intros w.
  - exists (active_rooms w), []. split_and!.
    + simpl. by rewrite world_eta.
    + constructor.
    + intros t. split; [by intros ?%elem_of_nil |].
      by intros (? & ? & _ & ?%elem_of_nil & _).
    + intros t r. split; [| by intros [? _]].
      intros Hr. split; [done |]. by intros ? ?%elem_of_nil.
  - destruct (IH (exec (cleanup_pass now) w)) as (rooms' & l2 & Hrun & Hnd & Hin & Hrooms).
    exists rooms', (swept now (active_rooms w) ++ l2). split_and!.
    + cbn [cleanup_rooms]. next (cleanup_pass_exec now w). rewrite Hrun.
      by rewrite groups_cleanup_pass, outbox_cleanup_pass, fmap_app, app_assoc.
    + apply NoDup_app. split_and!; [apply NoDup_swept | | done].
      intros t (r & Hr & Hlt)%elem_of_swept (r' & now' & Hr' & _)%Hin.
      apply lookup_cleanup_pass_Some in Hr' as [Hr' Hle].
      rewrite Hr in Hr'. injection Hr' as <-. lra.
    + intros t. rewrite elem_of_app, elem_of_swept, Hin. split.
      * intros [(r & Hr & Hlt)|(r & now' & Hr & Hnow & Hlt)].
        -- exists r, now. split_and!; [done | left | done].
        -- apply lookup_cleanup_pass_Some in Hr as [Hr _].
           exists r, now'. split_and!; [done | by right | done].
      * intros (r & now' & Hr & Hnow & Hlt).
        destruct (Qlt_le_dec (expiry r) now) as [Hexp|Hlive]; [left; eauto |].
        right. exists r, now'. split_and!; [| | done].
        -- by apply lookup_cleanup_pass_Some.
        -- apply elem_of_cons in Hnow as [->|Hnow]; [lra | done].
    + intros t r. rewrite Hrooms, lookup_cleanup_pass_Some. split.
      * intros [[Hr Hle] Hlater]. split; [done |].
        intros now' [->|Hnow]%elem_of_cons; [done | by apply Hlater].
      * intros [Hr Hall]. split_and!; [done | apply Hall; left |].
        intros now' Hnow. apply Hall. by right.
Qed.

(** X7: the sweeper loop never raises, however many rounds it runs: every
    key of a round's snapshot is still in the registry when it is visited.
    Over its rounds a room survives exactly when none of the clock readings
    was strictly after its expiry, every other room is notified with
    [room_expired] exactly once (to the members its transport room has), and
    the transport rooms keep their members. *)
Theorem X7_sweeper_rounds (clock : list Q) (w : World) :
  ∃ rooms' l,
    cleanup_rooms clock w =
      (Ok tt, mkWorld rooms' (groups w) (outbox w ++ (notice (groups w) <$> l))) ∧
    NoDup l ∧
    (∀ t, t ∈ l ↔ ∃ r now, active_rooms w !! t = Some r ∧ now ∈ clock ∧
                           (expiry r < now)%Q) ∧
    (∀ t r, rooms' !! t = Some r ↔
            active_rooms w !! t = Some r ∧ ∀ now, now ∈ clock → (now <= expiry r)%Q).
Proof. apply cleanup_rooms_eq. Qed.

(** X8: a round of the sweeper at a time that is not after the time of the
    round before it finds nothing to do: it returns normally, removes no room
    and sends no notification. *)
Theorem X8_sweep_again (s now : Q) (w : World) :
  (s <= now)%Q →
  cleanup_pass s (exec (cleanup_pass now) w) = (Ok tt, exec (cleanup_pass now) w).
Proof.
  intros Hle. rewrite cleanup_pass_eq, swept_none.
  - apply (f_equal (pair (Ok tt))), world_eta.
  - intros t r [_ Hlive]%lookup_cleanup_pass_Some. lra.
Qed.

(** X8 with two rounds at time 200 on the stale room. *)
Lemma X8_sweep_again_witness :
  (200 <= 200)%Q ∧
  cleanup_pass 200 (exec (cleanup_pass 200) stale_world) =
    (Ok tt, exec (cleanup_pass 200) stale_world).
Proof.
  assert (Hle : (200 <= 200)%Q) by (unfold Qle; simpl; lia).
  split; [exact Hle |].
  apply (X8_sweep_again 200%Q 200%Q stale_world Hle).
Defined.

(** ** Validation against the sweeper *)

Lemma validate_token_eval data now w :
  eval (validate_token data now) w =
    match dict_get data "token" with
    | JArr _ | JObj _ => Raise TypeError
    | JStr t =>
        Ok (match active_rooms w !! t with
            | Some r => if Qgtb (expiry r - now) 0
                        then valid_response (expiry r - now)
                        else invalid_response
            | None => invalid_response
            end)
    | _ => Ok invalid_response
    end.
Proof.
  unfold eval, validate_token. cbv zeta.
  destruct (dict_get data "token") as [| | | |t| |]; try reflexivity.
  destruct (active_rooms w !! t) as [r|] eqn:Hr.
  - next (contains_present _ _ _ Hr). next (room_item_present _ _ _ Hr).
    by destruct (Qgtb (expiry r - now) 0).
  - by next (contains_absent _ _ Hr).
Qed.

(** X9: the answer of validate does not depend on whether the sweeper has
    run: for every payload, validating at time [now] after a round of the
    sweeper at an earlier or equal time gives the answer (or the exception)
    it gives without that round.  A room the sweeper has not removed yet is
    already answered invalid once its expiry has passed. *)
Theorem X9_validate_ignores_sweeping (data : payload) (s now : Q) (w : World) :
  (s <= now)%Q →
  eval (validate_token data now) (exec (cleanup_pass s) w) =
    eval (validate_token data now) w.
Proof.
  intros Hle. rewrite !validate_token_eval.
  destruct (dict_get data "token") as [| | | |t| |]; try reflexivity.
  f_equal. rewrite lookup_cleanup_pass.
  destruct (active_rooms w !! t) as [r|]; [| done].
  destruct (Qgtb s (expiry r)) eqn:Hs; [| done].
  apply Qgtb_lt in Hs.
  assert (He : Qgtb (expiry r - now) 0 = false) by (apply Qgtb_le; lra).
  by rewrite He.
Qed.

(** X9 on the stale room, swept at 150 and validated at 200. *)
Lemma X9_validate_ignores_sweeping_witness :
  (150 <= 200)%Q ∧
  eval (validate_token {[ "token" := JStr "T" ]} 200) (exec (cleanup_pass 150) stale_world) =
    eval (validate_token {[ "token" := JStr "T" ]} 200) stale_world.
Proof.
  assert (Hle : (150 <= 200)%Q) by (unfold Qle; simpl; lia).
  split; [exact Hle |].
  apply (X9_validate_ignores_sweeping _ 150%Q 200%Q stale_world Hle).
Defined.

(** X10: once the sweeper has removed a room, its token is dead: a join, a
    leave or a message on it changes nothing and sends nothing (nobody can
    join the expired room again), and validate answers [{valid: false}] at
    any later time. *)
Theorem X10_swept_room_is_closed (sid : string) (data : payload) (t : string)
    (r : Room) (now : Q) (w : World) :
  data !! "token" = Some (JStr t) → active_rooms w !! t = Some r →
  (expiry r < now)%Q →
  on_join sid data (exec (cleanup_pass now) w) = (Ok tt, exec (cleanup_pass now) w) ∧
  on_leave sid data (exec (cleanup_pass now) w) = (Ok tt, exec (cleanup_pass now) w) ∧
  handle_message sid data (exec (cleanup_pass now) w) =
    (Ok tt, exec (cleanup_pass now) w) ∧
  (∀ later, validate_token data later (exec (cleanup_pass now) w) =
              (Ok invalid_response, exec (cleanup_pass now) w)).
Proof.
  intros Htok Hr Hlt.
  assert (Hgone : active_rooms (exec (cleanup_pass now) w) !! t = None).
  { rewrite lookup_cleanup_pass, Hr. apply Qgtb_lt in Hlt. by rewrite Hlt. }
  split_and!.
  - by apply (on_join_absent _ _ t).
  - by apply (on_leave_absent _ _ t).
  - by apply (handle_message_absent _ _ t).
  - intros later. by apply (validate_token_absent _ t).
Qed.

(** X10 on the stale room, swept at time 200. *)
Lemma X10_swept_room_is_closed_witness :
  let data : payload := {[ "token" := JStr "T" ]} in
  data !! "token" = Some (JStr "T") ∧
  active_rooms stale_world !! "T" = Some (mkRoom 100 0) ∧
  (expiry (mkRoom 100 0) < 200)%Q ∧
  on_join "a" data (exec (cleanup_pass 200) stale_world) =
    (Ok tt, exec (cleanup_pass 200) stale_world).
Proof.
  intros data.
  assert (Htok : data !! "token" = Some (JStr "T")) by reflexivity.
  assert (Hr : active_rooms stale_world !! "T" = Some (mkRoom 100 0)) by reflexivity.
  assert (Hlt : (expiry (mkRoom 100 0) < 200)%Q) by reflexivity.
  split_and!; [exact Htok | exact Hr | exact Hlt |].
  apply (proj1 (X10_swept_room_is_closed "a" data "T" _ 200%Q stale_world Htok Hr Hlt)).
Defined.

(** ** When a handler raises *)

Lemma on_join_outcome sid data w :
  match data !! "token" with
  | None => on_join sid data w = (Raise (KeyError (JStr "token")), w)
  | Some tok =>
      if hashable tok then eval (on_join sid data) w = Ok tt
      else on_join sid data w = (Raise TypeError, w)
  end.
Proof.
  destruct (data !! "token") as [tok|] eqn:Htok.
  - destruct tok as [| | | |t| |]; simpl hashable; cbv iota;
      try (unfold eval, on_join; by next (getitem_Some _ _ _ w Htok)).
    unfold eval. destruct (active_rooms w !! t) as [r|] eqn:Hr.
    + by rewrite (on_join_present _ _ _ _ Htok _ Hr).
    + by rewrite (on_join_absent _ _ _ _ Htok Hr).
  - unfold on_join. by rewrite (bind_raise _ _ _ _ _ (getitem_None _ _ w Htok)).
Qed.

Lemma on_leave_outcome sid data w :
  match data !! "token" with
  | None => on_leave sid data w = (Raise (KeyError (JStr "token")), w)
  | Some tok =>
      if hashable tok then eval (on_leave sid data) w = Ok tt
      else on_leave sid data w = (Raise TypeError, w)
  end.
Proof.
  destruct (data !! "token") as [tok|] eqn:Htok.
  - destruct tok as [| | | |t| |]; simpl hashable; cbv iota;
      try (unfold eval, on_leave; by next (getitem_Some _ _ _ w Htok)).
    unfold eval. destruct (active_rooms w !! t) as [r|] eqn:Hr.
    + by rewrite (on_leave_present _ _ _ _ Htok _ Hr).
    + by rewrite (on_leave_absent _ _ _ _ Htok Hr).
  - unfold on_leave. by rewrite (bind_raise _ _ _ _ _ (getitem_None _ _ w Htok)).
Qed.

Lemma handle_message_outcome sid data w :
  match data !! "token" with
  | None => handle_message sid data w = (Raise (KeyError (JStr "token")), w)
  | Some tok =>
      if hashable tok then eval (handle_message sid data) w = Ok tt
      else handle_message sid data w = (Raise TypeError, w)
  end.
Proof.
  destruct (data !! "token") as [tok|] eqn:Htok.
  - destruct tok as [| | | |t| |]; simpl hashable; cbv iota;
      try (unfold eval, handle_message; by next (getitem_Some _ _ _ w Htok)).
    unfold eval. destruct (active_rooms w !! t) as [r|] eqn:Hr.
    + by rewrite (handle_message_present _ _ _ _ Htok _ Hr).
    + by rewrite (handle_message_absent _ _ _ _ Htok Hr).
  - unfold handle_message. by rewrite (bind_raise _ _ _ _ _ (getitem_None _ _ w Htok)).
Qed.

Lemma share_metrics_outcome sid data w :
  match data !! "token", data !! "ping" with
  | None, _ => share_metrics sid data w = (Raise (KeyError (JStr "token")), w)
  | Some _, None => share_metrics sid data w = (Raise (KeyError (JStr "ping")), w)
  | Some _, Some _ => eval (share_metrics sid data) w = Ok tt
  end.
Proof.
  unfold eval, share_metrics.
  destruct (data !! "token") as [tok|] eqn:Htok.
  - next (getitem_Some _ _ _ w Htok). destruct (data !! "ping") as [ping|] eqn:Hp.
    + by next (getitem_Some _ _ _ w Hp).
    + by rewrite (bind_raise _ _ _ _ _ (getitem_None _ _ w Hp)).
  - by rewrite (bind_raise _ _ _ _ _ (getitem_None _ _ w Htok)).
Qed.

Lemma confirm_delivery_outcome sid data w :
  if truthy (dict_get data "sender_socket_id") then
    match data !! "msg_id" with
    | None => confirm_delivery sid data w = (Raise (KeyError (JStr "msg_id")), w)
    | Some _ => eval (confirm_delivery sid data) w = Ok tt
    end
  else confirm_delivery sid data w = (Ok tt, w).
Proof.
  unfold eval, confirm_delivery. cbv zeta.
  destruct (truthy (dict_get data "sender_socket_id")); [| done].
  destruct (data !! "msg_id") as [m|] eqn:Hm.
  - by next (getitem_Some _ _ _ w Hm).
  - by rewrite (bind_raise _ _ _ _ _ (getitem_None _ _ w Hm)).
Qed.

(** X11: whether a socket handler raises is decided by the payload alone,
    never by the registry.  Join, leave and message raise [KeyError] when
    ["token"] is missing and [TypeError] when it is a JSON array or object
    (unhashable), return normally in every other case, and have changed
    nothing when they raise.  Typing, stop_typing and share_metrics raise
    [KeyError], with nothing changed, when ["token"] is missing, share_metrics
    also when ["ping"] is missing, and return normally on a string token.
    Confirm_delivery does nothing at all, and does not raise, when the sender
    id is missing or falsy (null, false, 0, the empty string, an empty array
    or object), even without ["msg_id"]; with a truthy sender id it raises
    [KeyError] when ["msg_id"] is missing. *)
Theorem X11_when_handlers_raise (sid : string) (data : payload) (w : World) :
  let keyed : result unit :=
    match data !! "token" with
    | None => Raise (KeyError (JStr "token"))
    | Some tok => if hashable tok then Ok tt else Raise TypeError
    end in
  eval (on_join sid data) w = keyed ∧
  eval (on_leave sid data) w = keyed ∧
  eval (handle_message sid data) w = keyed ∧
  (∀ e, eval (on_join sid data) w = Raise e → exec (on_join sid data) w = w) ∧
  (∀ e, eval (on_leave sid data) w = Raise e → exec (on_leave sid data) w = w) ∧
  (∀ e, eval (handle_message sid data) w = Raise e →
        exec (handle_message sid data) w = w) ∧
  (data !! "token" = None →
     handle_typing sid data w = (Raise (KeyError (JStr "token")), w) ∧
     handle_stop_typing sid data w = (Raise (KeyError (JStr "token")), w) ∧
     share_metrics sid data w = (Raise (KeyError (JStr "token")), w)) ∧
  (is_Some (data !! "token") → data !! "ping" = None →
     share_metrics sid data w = (Raise (KeyError (JStr "ping")), w)) ∧
  (∀ t, data !! "token" = Some (JStr t) →
     eval (handle_typing sid data) w = Ok tt ∧
     eval (handle_stop_typing sid data) w = Ok tt ∧
     (is_Some (data !! "ping") → eval (share_metrics sid data) w = Ok tt)) ∧
  (truthy (dict_get data "sender_socket_id") = false →
     confirm_delivery sid data w = (Ok tt, w)) ∧
  (truthy (dict_get data "sender_socket_id") = true → data !! "msg_id" = None →
     confirm_delivery sid data w = (Raise (KeyError (JStr "msg_id")), w)) ∧
  (∀ target, data !! "sender_socket_id" = Some (JStr target) → target ≠ "" →
     is_Some (data !! "msg_id") → eval (confirm_delivery sid data) w = Ok tt).
Proof.
  intros keyed. subst keyed.
  pose proof (on_join_outcome sid data w) as Hj.
  pose proof (on_leave_outcome sid data w) as Hl.
  pose proof (handle_message_outcome sid data w) as Hm.
  pose proof (share_metrics_outcome sid data w) as Hs.
  pose proof (confirm_delivery_outcome sid data w) as Hc.
  split_and!.
  - unfold eval in *. destruct (data !! "token") as [tok|];
      [destruct (hashable tok) |]; by rewrite ?Hj.
  - unfold eval in *. destruct (data !! "token") as [tok|];
      [destruct (hashable tok) |]; by rewrite ?Hl.
  - unfold eval in *. destruct (data !! "token") as [tok|];
      [destruct (hashable tok) |]; by rewrite ?Hm.
  - intros e He. unfold eval, exec in *. destruct (data !! "token") as [tok|];
      [destruct (hashable tok) |]; [congruence | by rewrite Hj | by rewrite Hj].
  - intros e He. unfold eval, exec in *. destruct (data !! "token") as [tok|];
      [destruct (hashable tok) |]; [congruence | by rewrite Hl | by rewrite Hl].
  - intros e He. unfold eval, exec in *. destruct (data !! "token") as [tok|];
      [destruct (hashable tok) |]; [congruence | by rewrite Hm | by rewrite Hm].
  - intros Hno. rewrite Hno in Hs. split_and!; [| | exact Hs].
    + unfold handle_typing. by rewrite (bind_raise _ _ _ _ _ (getitem_None _ _ w Hno)).
    + unfold handle_stop_typing.
      by rewrite (bind_raise _ _ _ _ _ (getitem_None _ _ w Hno)).
  - intros [tok Htok] Hp. by rewrite Htok, Hp in Hs.
  - intros t Htok. split_and!.
    + unfold eval. by rewrite (handle_typing_str _ _ _ _ Htok).
    + unfold eval. by rewrite (handle_stop_typing_str _ _ _ _ Htok).
    + intros [ping Hp]. by rewrite Htok, Hp in Hs.
  - intros Hf. by rewrite Hf in Hc.
  - intros Ht Hm'. by rewrite Ht, Hm' in Hc.
  - intros target Htarget Hne [m Hm'].
    by rewrite (dict_get_Some _ _ _ Htarget), (truthy_str _ Hne), Hm' in Hc.
Qed.

(** X11 on a confirmation whose sender id is the empty string and which has
    no [msg_id]: nothing happens. *)
Lemma X11_when_handlers_raise_witness :
  let data : payload := {[ "sender_socket_id" := JStr "" ]} in
  truthy (dict_get data "sender_socket_id") = false ∧
  confirm_delivery "s1" data two_peers = (Ok tt, two_peers).
Proof.
  intros data.
  assert (Hfalsy : truthy (dict_get data "sender_socket_id") = false) by reflexivity.
  split; [exact Hfalsy |].
  apply (proj1 (proj2 (proj2 (proj2 (proj2 (proj2 (proj2 (proj2 (proj2 (proj2
           (X11_when_handlers_raise "s1" data two_peers)))))))))) Hfalsy).
Defined.

(** X12: a token that is a JSON null, boolean or number names no room: the
    registry is keyed by the strings that create made, so join, leave and
    message do nothing and send nothing on it, and validate answers
    [{valid: false}], whatever the registry holds. *)
Theorem X12_scalar_token_names_no_room (sid : string) (data : payload) (tok : json)
    (now : Q) (w : World) :
  data !! "token" = Some tok → hashable tok = true → (∀ t, tok ≠ JStr t) →
  on_join sid data w = (Ok tt, w) ∧
  on_leave sid data w = (Ok tt, w) ∧
  handle_message sid data w = (Ok tt, w) ∧
  validate_token data now w = (Ok invalid_response, w).
Proof.
  intros Htok Hhash Hstr.
  destruct tok as [| | | |t| |]; try discriminate Hhash; [| | | |by destruct (Hstr t)].
  all: split_and!;
    [ unfold on_join; by next (getitem_Some _ _ _ w Htok)
    | unfold on_leave; by next (getitem_Some _ _ _ w Htok)
    | unfold handle_message; by next (getitem_Some _ _ _ w Htok)
    | unfold validate_token, dict_get; by rewrite Htok ].
Qed.

(** X12 with the token 7 on the room of the two peers. *)
Lemma X12_scalar_token_names_no_room_witness :
  let data : payload := {[ "token" := JInt 7 ]} in
  data !! "token" = Some (JInt 7) ∧ hashable (JInt 7) = true ∧
  (∀ t, JInt 7 ≠ JStr t) ∧
  on_join "s1" data two_peers = (Ok tt, two_peers).
Proof.
  intros data.
  assert (Htok : data !! "token" = Some (JInt 7)) by reflexivity.
  assert (Hhash : hashable (JInt 7) = true) by reflexivity.
  assert (Hstr : ∀ t, JInt 7 ≠ JStr t) by (intros t; discriminate).
  split_and!; [exact Htok | exact Hhash | exact Hstr |].
  apply (proj1 (X12_scalar_token_names_no_room "s1" data _ 0%Q two_peers
                  Htok Hhash Hstr)).
Defined.

(** ** What each request can touch *)

(** The relays only append to the outbox, one emission at most. *)
Ltac relay_shape :=
  crush_handler;
  first [ exists []; split; [by rewrite world_eta | simpl; lia]
        | eexists [_]; split; [reflexivity | simpl; lia] ].

Lemma handle_message_shape sid data w :
  ∃ new, exec (handle_message sid data) w =
           mkWorld (active_rooms w) (groups w) (outbox w ++ new) ∧
         (length new ≤ 1)%nat.
Proof. unfold handle_message. relay_shape. Qed.

Lemma handle_typing_shape sid data w :
  ∃ new, exec (handle_typing sid data) w =
           mkWorld (active_rooms w) (groups w) (outbox w ++ new) ∧
         (length new ≤ 1)%nat.
Proof. unfold handle_typing. relay_shape. Qed.

Lemma handle_stop_typing_shape sid data w :
  ∃ new, exec (handle_stop_typing sid data) w =
           mkWorld (active_rooms w) (groups w) (outbox w ++ new) ∧
         (length new ≤ 1)%nat.
Proof. unfold handle_stop_typing. relay_shape. Qed.

Lemma share_metrics_shape sid data w :
  ∃ new, exec (share_metrics sid data) w =
           mkWorld (active_rooms w) (groups w) (outbox w ++ new) ∧
         (length new ≤ 1)%nat.
Proof. unfold share_metrics. relay_shape. Qed.

Lemma confirm_delivery_shape sid data w :
  ∃ new, exec (confirm_delivery sid data) w =
           mkWorld (active_rooms w) (groups w) (outbox w ++ new) ∧
         (length new ≤ 1)%nat.
Proof.
  unfold confirm_delivery.
  destruct (truthy (dict_get data "sender_socket_id")).
  - unfold exec, getitem. destruct (data !! "msg_id").
    + eexists [_]. split; [reflexivity | simpl; lia].
    + exists []. split; [by rewrite world_eta | simpl; lia].
  - exists []. split; [by rewrite world_eta | simpl; lia].
Qed.

(** The whole effect of one request, by kind of request. *)
Lemma step_shape req w :
  match req with
  | GenerateToken fresh now =>
      step req w =
        mkWorld (<[ fresh := mkRoom (now + inject_Z ROOM_TTL) 0 ]> (active_rooms w))
                (groups w) (outbox w)
  | ValidateToken _ _ | PingCheck _ => step req w = w
  | Join sid data =>
      step req w = w ∨
      ∃ t r, data !! "token" = Some (JStr t) ∧ active_rooms w !! t = Some r ∧
             step req w =
               mkWorld (<[ t := mkRoom (expiry r) (users r + 1) ]> (active_rooms w))
                       (<[ t := {[ sid ]} ∪ members (groups w) t ]> (groups w))
                       (outbox w ++
                          [ status_sent t (users r + 1) ({[ sid ]} ∪ members (groups w) t) ])
  | Leave sid data =>
      step req w = w ∨
      ∃ t r, data !! "token" = Some (JStr t) ∧ active_rooms w !! t = Some r ∧
             step req w =
               mkWorld (<[ t := mkRoom (expiry r) (Z.max 0 (users r - 1)) ]> (active_rooms w))
                       (<[ t := members (groups w) t ∖ {[ sid ]} ]> (groups w))
                       (outbox w ++
                          [ status_sent t (Z.max 0 (users r - 1))
                              (members (groups w) t ∖ {[ sid ]}) ])
  | Sweep now =>
      step req w =
        mkWorld (drop_rooms (active_rooms w) (swept now (active_rooms w)))
                (groups w)
                (outbox w ++ (notice (groups w) <$> swept now (active_rooms w)))
  | _ =>
      ∃ new, step req w = mkWorld (active_rooms w) (groups w) (outbox w ++ new) ∧
             (length new ≤ 1)%nat
  end.
Proof.
  destruct req as [fresh now|data now|sid data|sid data|sid data|sid data
                  |sid data|sid data|now|sid data|now]; unfold step.
  - reflexivity.
  - apply validate_token_world.
  - destruct (on_join_cases sid data w) as [Hsame|(t & r & Htok & Hr)]; [by left |].
    right. exists t, r. split_and!; [done | done |].
    by apply step_join_present.
  - destruct (on_leave_cases sid data w) as [Hsame|(t & r & Htok & Hr)]; [by left |].
    right. exists t, r. split_and!; [done | done |].
    by apply step_leave_present.
  - apply handle_message_shape.
  - apply confirm_delivery_shape.
  - apply handle_typing_shape.
  - apply handle_stop_typing_shape.
  - reflexivity.
  - apply share_metrics_shape.
  - unfold exec. by rewrite cleanup_pass_eq.
Qed.

(** X13: the membership of the transport rooms changes only by a join or a
    leave on a token that is in the registry, and then only in that token's
    room, by adding or removing the caller.  So a join on a token that is not
    registered puts the caller in no room, and the sweeper takes nobody out of
    the room it expires. *)
Theorem X13_membership_changes (req : Request) (w : World) :
  groups (step req w) = groups w ∨
  (∃ sid data t,
     req = Join sid data ∧ data !! "token" = Some (JStr t) ∧
     is_Some (active_rooms w !! t) ∧
     groups (step req w) = <[ t := {[ sid ]} ∪ members (groups w) t ]> (groups w)) ∨
  (∃ sid data t,
     req = Leave sid data ∧ data !! "token" = Some (JStr t) ∧
     is_Some (active_rooms w !! t) ∧
     groups (step req w) = <[ t := members (groups w) t ∖ {[ sid ]} ]> (groups w)).
Proof.
  pose proof (step_shape req w) as H.
  destruct req as [fresh now|data now|sid data|sid data|sid data|sid data
                  |sid data|sid data|now|sid data|now].
  - left. by rewrite H.
  - left. by rewrite H.
  - destruct H as [->|(t & r & Htok & Hr & ->)]; [by left |].
    right; left. exists sid, data, t. split_and!; [done | done | by exists r | done].
  - destruct H as [->|(t & r & Htok & Hr & ->)]; [by left |].
    right; right. exists sid, data, t. split_and!; [done | done | by exists r | done].
  - left. by destruct H as (new & -> & _).
  - left. by destruct H as (new & -> & _).
  - left. by destruct H as (new & -> & _).
  - left. by destruct H as (new & -> & _).
  - left. by rewrite H.
  - left. by destruct H as (new & -> & _).
  - left. by rewrite H.
Qed.

(** X14: only a create adds a token to the registry and only the sweeper
    removes one: a room that is registered is still registered after any
    request that is not a round of the sweeper, and a room registered after a
    request either was registered before it or was created by it. *)
Theorem X14_rooms_come_and_go :
  (∀ req w t, (∀ now, req ≠ Sweep now) → is_Some (active_rooms w !! t) →
              is_Some (active_rooms (step req w) !! t)) ∧
  (∀ req w t, is_Some (active_rooms (step req w) !! t) →
              is_Some (active_rooms w !! t) ∨ ∃ now, req = GenerateToken t now).
Proof.
  split.
  - intros req w t Hreq Hin. pose proof (step_shape req w) as H.
    destruct req as [fresh now|data now|sid data|sid data|sid data|sid data
                    |sid data|sid data|now|sid data|now].
    + rewrite H. simpl. rewrite lookup_insert_is_Some. destruct (decide (fresh = t)); auto.
    + by rewrite H.
    + destruct H as [->|(t0 & r & _ & Hr & ->)]; [done |]. simpl.
      rewrite lookup_insert_is_Some. destruct (decide (t0 = t)); auto.
    + destruct H as [->|(t0 & r & _ & Hr & ->)]; [done |]. simpl.
      rewrite lookup_insert_is_Some. destruct (decide (t0 = t)); auto.
    + by destruct H as (new & -> & _).
    + by destruct H as (new & -> & _).
    + by destruct H as (new & -> & _).
    + by destruct H as (new & -> & _).
    + by rewrite H.
    + by destruct H as (new & -> & _).
    + by destruct (Hreq now).
  - intros req w t [r' Hr'].
    apply step_rooms in Hr'
      as [H|[(now & -> & _)|[(? & ? & r & _ & _ & H & _)|(? & ? & r & _ & _ & H & _)]]];
      eauto.
Qed.

(** X14 on a join of the stale room. *)
Lemma X14_rooms_come_and_go_witness :
  let req := Join "a" {[ "token" := JStr "T" ]} in
  (∀ now, req ≠ Sweep now) ∧ is_Some (active_rooms stale_world !! "T") ∧
  is_Some (active_rooms (step req stale_world) !! "T").
Proof.
  intros req.
  assert (Hreq : ∀ now, req ≠ Sweep now) by (intros now; discriminate).
  assert (Hin : is_Some (active_rooms stale_world !! "T"))
    by (exists (mkRoom 100 0); reflexivity).
  split_and!; [exact Hreq | exact Hin |].
  apply (proj1 X14_rooms_come_and_go req stale_world "T" Hreq Hin).
Defined.

(** X15: in every state reached from the empty registry, the expiry of a
    room is the time of a create of its token plus ROOM_TTL: no join, leave,
    message or any other activity ever moves it. *)
Theorem X15_expiry_provenance (g : gmap string (gset string)) (reqs : list Request)
    (t : string) (r : Room) :
  active_rooms (run reqs (initial g)) !! t = Some r →
  ∃ created, GenerateToken t created ∈ reqs ∧
             expiry r = (created + inject_Z ROOM_TTL)%Q.
Proof.
  revert r. induction reqs as [|req reqs IH] using rev_ind; intros r' Hr'.
  - simpl in Hr'. by rewrite lookup_empty in Hr'.
  - rewrite run_snoc in Hr'.
    apply step_rooms in Hr'
      as [H|[(now & -> & ->)|[(? & ? & r & _ & _ & H & ->)|(? & ? & r & _ & _ & H & ->)]]].
    + destruct (IH _ H) as (created & Hin & He). exists created. split; [set_solver | done].
    + exists now. split; [set_solver | done].
    + destruct (IH _ H) as (created & Hin & He). exists created. split; [set_solver | done].
    + destruct (IH _ H) as (created & Hin & He). exists created. split; [set_solver | done].
Qed.

(** X15 on the run that creates "T" at time 0, joins it and leaves it twice. *)
Lemma X15_expiry_provenance_witness :
  active_rooms left_twice !! "T" = Some (mkRoom (0 + inject_Z ROOM_TTL) 0) ∧
  ∃ created,
    GenerateToken "T" created ∈
      [ GenerateToken "T" 0; Join "a" {[ "token" := JStr "T" ]};
        Leave "a" {[ "token" := JStr "T" ]}; Leave "a" {[ "token" := JStr "T" ]} ] ∧
    expiry (mkRoom (0 + inject_Z ROOM_TTL) 0) = (created + inject_Z ROOM_TTL)%Q.
Proof.
  assert (Hr : active_rooms left_twice !! "T" = Some (mkRoom (0 + inject_Z ROOM_TTL) 0))
    by (vm_compute; reflexivity).
  split; [exact Hr |].
  apply (X15_expiry_provenance ∅ _ "T" _ Hr).
Defined.

(** X16: no request changes or withdraws what was already sent; the two HTTP
    endpoints and ping_check send nothing to any room, every socket event
    sends at most one message, and a round of the sweeper sends exactly its
    [room_expired] notifications. *)
Theorem X16_outbox_grows (req : Request) (w : World) :
  ∃ new, outbox (step req w) = outbox w ++ new ∧
         match req with
         | GenerateToken _ _ | ValidateToken _ _ | PingCheck _ => new = []
         | Sweep now => new = notice (groups w) <$> swept now (active_rooms w)
         | _ => (length new ≤ 1)%nat
         end.
Proof.
  pose proof (step_shape req w) as H.
  destruct req as [fresh now|data now|sid data|sid data|sid data|sid data
                  |sid data|sid data|now|sid data|now].
  - exists []. rewrite H. simpl. by rewrite app_nil_r.
  - exists []. rewrite H. by rewrite app_nil_r.
  - destruct H as [->|(t & r & _ & _ & ->)].
    + exists []. rewrite app_nil_r. split; [done | simpl; lia].
    + eexists [_]. split; [reflexivity | simpl; lia].
  - destruct H as [->|(t & r & _ & _ & ->)].
    + exists []. rewrite app_nil_r. split; [done | simpl; lia].
    + eexists [_]. split; [reflexivity | simpl; lia].
  - destruct H as (new & -> & Hlen). by exists new.
  - destruct H as (new & -> & Hlen). by exists new.
  - destruct H as (new & -> & Hlen). by exists new.
  - destruct H as (new & -> & Hlen). by exists new.
  - exists []. rewrite H. by rewrite app_nil_r.
  - destruct H as (new & -> & Hlen). by exists new.
  - eexists. rewrite H. split; reflexivity.
Qed.

(** ** The validate endpoint on any payload *)

(** X17: validate is read-only and fails only on an unhashable token: for
    every payload it leaves registry, transport rooms and outbox as they
    were; it raises [TypeError] exactly when ["token"] is a JSON array or
    object; on a string it answers valid with [remaining = expiry - now] when
    the room is registered and that difference is positive, and
    [{valid: false}] otherwise; on a missing, null, boolean or numeric token it
    answers [{valid: false}]. *)
Theorem X17_validate_on_any_payload (data : payload) (now : Q) (w : World) :
  exec (validate_token data now) w = w ∧
  eval (validate_token data now) w =
    match dict_get data "token" with
    | JArr _ | JObj _ => Raise TypeError
    | JStr t =>
        Ok (match active_rooms w !! t with
            | Some r => if Qgtb (expiry r - now) 0
                        then valid_response (expiry r - now)
                        else invalid_response
            | None => invalid_response
            end)
    | _ => Ok invalid_response
    end.
Proof. split; [apply validate_token_world | apply validate_token_eval]. Qed.

(** ** The lifetime of a room *)

Lemma step_keeps_room req w t r :
  active_rooms w !! t = Some r →
  (∀ now, req ≠ GenerateToken t now) →
  (∀ s, req = Sweep s → (s <= expiry r)%Q) →
  ∃ r', active_rooms (step req w) !! t = Some r' ∧ expiry r' = expiry r.
Proof.
  intros Hr Hreq Hsweep. pose proof (step_shape req w) as H.
  destruct req as [fresh now|data now|sid data|sid data|sid data|sid data
                  |sid data|sid data|now|sid data|now].
  - exists r. rewrite H. simpl. rewrite lookup_insert_ne; [done |].
    intros ->. by destruct (Hreq now).
  - exists r. by rewrite H.
  - destruct H as [->|(t0 & r0 & _ & Hr0 & ->)]; [by exists r |]. simpl.
    destruct (decide (t0 = t)) as [->|Hne].
    + rewrite lookup_insert_eq. eexists. split; [done |]. simpl. congruence.
    + exists r. by rewrite lookup_insert_ne.
  - destruct H as [->|(t0 & r0 & _ & Hr0 & ->)]; [by exists r |]. simpl.
    destruct (decide (t0 = t)) as [->|Hne].
    + rewrite lookup_insert_eq. eexists. split; [done |]. simpl. congruence.
    + exists r. by rewrite lookup_insert_ne.
  - exists r. by destruct H as (new & -> & _).
  - exists r. by destruct H as (new & -> & _).
  - exists r. by destruct H as (new & -> & _).
  - exists r. by destruct H as (new & -> & _).
  - exists r. by rewrite H.
  - exists r. by destruct H as (new & -> & _).
  - exists r. split; [| done]. unfold step.
    apply lookup_cleanup_pass_Some. split; [done | by apply Hsweep].
Qed.

Lemma run_keeps_room t : ∀ reqs w r,
  active_rooms w !! t = Some r →
  (∀ now, GenerateToken t now ∉ reqs) →
  (∀ s, Sweep s ∈ reqs → (s <= expiry r)%Q) →
  ∃ r', active_rooms (run reqs w) !! t = Some r' ∧ expiry r' = expiry r.
Proof.
  induction reqs as [|req reqs IH]; intros w r Hr Hnew Hsweep; [by exists r |].
  rewrite run_cons.
  destruct (step_keeps_room req w t r Hr) as (r1 & Hr1 & He1).
  - intros now ->. apply (Hnew now). left.
  - intros s ->. apply Hsweep. left.
  - destruct (IH _ _ Hr1) as (r' & Hr' & He').
    + intros now Hin. apply (Hnew now). by right.
    + intros s Hin. rewrite He1. apply Hsweep. by right.
    + exists r'. split; [done | congruence].
Qed.

Lemma run_room_expiry t : ∀ reqs w r r',
  active_rooms w !! t = Some r →
  (∀ now, GenerateToken t now ∉ reqs) →
  active_rooms (run reqs w) !! t = Some r' → expiry r' = expiry r.
Proof.
  induction reqs as [|req reqs IH] using rev_ind; intros w r r' Hr Hnew Hr'.
  - simpl in Hr'. congruence.
  - rewrite run_snoc in Hr'.
    assert (Hnew' : ∀ now, GenerateToken t now ∉ reqs).
    { intros now Hin. apply (Hnew now). set_solver. }
    apply step_rooms in Hr'
      as [H|[(now & -> & _)|[(? & ? & r0 & _ & _ & H & ->)|(? & ? & r0 & _ & _ & H & ->)]]].
    + by apply (IH w r).
    + exfalso. apply (Hnew now). set_solver.
    + simpl. by apply (IH w r).
    + simpl. by apply (IH w r).
Qed.

(** X18: the lifetime of a room is fixed by the expiry stored in it, whatever
    happens to it.  For a room in the registry and any requests that do not
    create its token again: a validate at a time at or after its expiry
    answers [{valid: false}]; a validate before its expiry answers valid with
    [remaining = expiry - now], provided no round of the sweeper among the
    requests ran at a time after the expiry. *)
Theorem X18_room_lifetime (t : string) (r : Room) (now : Q) (data : payload)
    (reqs : list Request) (w : World) :
  data !! "token" = Some (JStr t) →
  active_rooms w !! t = Some r →
  (∀ c, GenerateToken t c ∉ reqs) →
  ((expiry r <= now)%Q →
   validate_token data now (run reqs w) = (Ok invalid_response, run reqs w)) ∧
  ((now < expiry r)%Q →
   (∀ s, Sweep s ∈ reqs → (s <= expiry r)%Q) →
   validate_token data now (run reqs w) =
     (Ok (valid_response (expiry r - now)), run reqs w)).
Proof.
  intros Htok Hr Hnew. split.
  - intros Hlate.
    destruct (active_rooms (run reqs w) !! t) as [r'|] eqn:Hr'.
    + apply (validate_token_expired _ t r'); [done | done |].
      by rewrite (run_room_expiry _ _ _ _ _ Hr Hnew Hr').
    + by apply (validate_token_absent _ t).
  - intros Hearly Hsweep.
    destruct (run_keeps_room t reqs w _ Hr Hnew Hsweep) as (r' & Hr' & He').
    rewrite <- He'.
    apply (validate_token_valid _ t r'); [done | done |].
    by rewrite He'.
Qed.

(** X18 for the room of the two peers (expiry 600), joined once more and
    swept at 10, then validated at 20. *)
Lemma X18_room_lifetime_witness :
  let data : payload := {[ "token" := JStr "T" ]} in
  let reqs := [ Join "a" data; Sweep 10 ] in
  data !! "token" = Some (JStr "T") ∧
  active_rooms two_peers !! "T" = Some (mkRoom 600 2) ∧
  (∀ c, GenerateToken "T" c ∉ reqs) ∧
  (20 < expiry (mkRoom 600 2))%Q ∧
  (∀ s, Sweep s ∈ reqs → (s <= expiry (mkRoom 600 2))%Q) ∧
  validate_token data 20 (run reqs two_peers) =
    (Ok (valid_response (expiry (mkRoom 600 2) - 20)), run reqs two_peers).
Proof.
  intros data reqs.
  assert (Htok : data !! "token" = Some (JStr "T")) by reflexivity.
  assert (Hr : active_rooms two_peers !! "T" = Some (mkRoom 600 2)) by reflexivity.
  assert (Hnew : ∀ c, GenerateToken "T" c ∉ reqs).
  { intros c Hin. apply elem_of_cons in Hin as [Hin|Hin]; [discriminate |].
    apply elem_of_cons in Hin as [Hin|Hin]; [discriminate |].
    by apply elem_of_nil in Hin. }
  assert (Hearly : (20 < expiry (mkRoom 600 2))%Q) by reflexivity.
  assert (Hsweep : ∀ s, Sweep s ∈ reqs → (s <= expiry (mkRoom 600 2))%Q).
  { intros s Hin. apply elem_of_cons in Hin as [Hin|Hin]; [discriminate |].
    apply elem_of_cons in Hin as [Hin|Hin].
    - injection Hin as ->. vm_compute. intros Hgt. discriminate Hgt.
    - by apply elem_of_nil in Hin. }
  split_and!; [exact Htok | exact Hr | exact Hnew | exact Hearly | exact Hsweep |].
  apply (proj2 (X18_room_lifetime "T" _ 20%Q data reqs two_peers Htok Hr Hnew)
           Hearly Hsweep).
Defined.
